(** * A model of [nsrdb_bulk_download.py]

    Shallow embedding of the bulk downloader: the grid enumeration
    ([frange], [generate_points]), the artifact naming, the validity check
    [looks_like_valid_csv], the fetch [fetch_csv] under its tenacity retry
    decorator, and the per-item body of [main].

    Modelling choices:
    - Python floats are IEEE binary64 values ([SpecFloat], precision 53,
      [emax] 1024) with round-to-nearest-even addition, as in [frange];
      [round(x, 6)] and the [.4f] format are written on their exact values.
    - The file system is a total map from paths to optional contents;
      directories are implicit, so [ensure_dir] has no effect.
    - The network is a scripted server: the i-th call of [requests.get] in a
      run receives [w_server w i].  Every call and every [time.sleep] is
      recorded in a log, most recent first.
    - [csv.reader] and [str.upper] are library calls: the class [CsvReader]
      holds the first row of a file and the upper-casing of a field, and
      every theorem about the loop holds for any instance.  The instance
      [py_csv] follows CPython's [_csv] reader for the default dialect and
      [str.upper] on ASCII text; the theorems on the validity check itself
      use it, on ASCII header lines.
    - The write of the ErrorRecord in the [except] branch is the class
      [ErrWriter]: [os_write] always succeeds, and [refusing ro] raises an
      [OSError] for the paths [ro] marks (a read-only directory).  The file
      operations inside the [try] are taken to succeed where the claims do
      not say otherwise; a full disk is not modelled.
    - [load_config] (YAML), [ensure_dir] (directories) and [build_params]
      (request parameters, passed to the scripted server unread) are not
      modelled. *)

From Stdlib Require Import String Ascii List ZArith QArith Qround Lia Lqa Bool.
From Stdlib Require DecimalString DecimalN.
From Stdlib Require Import Qabs Sorted.
From Stdlib Require Import SpecFloat.
Import ListNotations.

(* ------------------------------------------------------------------ *)
(** ** Strings *)

Module Str.

(** [str.upper] on ASCII text. *)
Definition upper_char (c : ascii) : ascii :=
  let n := nat_of_ascii c in
  if (97 <=? n) && (n <=? 122) then ascii_of_nat (n - 32) else c.

Fixpoint upper (s : string) : string :=
  match s with
  | EmptyString => EmptyString
  | String c s' => String (upper_char c) (upper s')
  end.

(** A 7-bit character: the text on which decoding UTF-8 is the identity and
    [str.upper] only maps [a-z]. *)
Definition is_ascii (c : ascii) : bool := Nat.ltb (nat_of_ascii c) 128.

Fixpoint prefixb (p s : string) : bool :=
  match p, s with
  | EmptyString, _ => true
  | String a p', String b s' => Ascii.eqb a b && prefixb p' s'
  | String _ _, EmptyString => false
  end.

(** Python's [p in s] for strings. *)
Fixpoint containsb (p s : string) : bool :=
  prefixb p s ||
  match s with
  | EmptyString => false
  | String _ s' => containsb p s'
  end.

(** [str.rfind('.')]. *)
Fixpoint rfind_dot_aux (s : string) (i : nat) (acc : option nat) : option nat :=
  match s with
  | EmptyString => acc
  | String c s' =>
      rfind_dot_aux s' (S i) (if Ascii.eqb c "." then Some i else acc)
  end.

Definition rfind_dot (s : string) : option nat := rfind_dot_aux s 0 None.

(** [str(n)] for a non-negative Python int. *)
Definition str_N (n : N) : string :=
  DecimalString.NilEmpty.string_of_uint (N.to_uint n).

(** [str(z)] for a Python int. *)
Definition str_Z (z : Z) : string :=
  if (z <? 0)%Z then String "-" (str_N (Z.to_N (- z)))
  else str_N (Z.to_N z).

Definition digit (d : N) : string := String (ascii_of_N (48 + d)%N) EmptyString.

(** The four fractional digits of [.4f], zero padded. *)
Definition pad4 (r : N) : string :=
  (digit (r / 1000) ++ digit ((r / 100) mod 10) ++
   digit ((r / 10) mod 10) ++ digit (r mod 10))%string.

(** Every character of [s] satisfies [f]. *)
Fixpoint forall_chars (f : ascii -> bool) (s : string) : bool :=
  match s with
  | EmptyString => true
  | String c s' => f c && forall_chars f s'
  end.


End Str.

(* ------------------------------------------------------------------ *)
(** ** Python floats: IEEE 754 binary64

    The coordinates are Python floats.  They are [spec_float] values of the
    Standard Library with binary64's precision (53 bits) and range
    ([emax = 1024]); the arithmetic is [SpecFloat]'s, which rounds to nearest,
    ties to even, like the hardware. *)

Module F.

Definition prec : Z := 53.
Definition emax : Z := 1024.

Definition float := spec_float.

(** [x + y]. *)
Definition add (x y : float) : float := SFadd prec emax x y.

(** [x <= y] ([False] when either is a NaN). *)
Definition leb (x y : float) : bool := SFleb x y.

(** The float nearest to [p / q] with the given sign, as Python's
    [float()] of a decimal text or of a fraction gives it. *)
Definition of_ratio (neg : bool) (p q : positive) : float :=
  SFdiv prec emax (S754_finite neg p 0) (S754_finite false q 0).

(** A float literal: the float nearest to a rational. *)
Definition of_Q (q : Q) : float :=
  match Qnum q with
  | Z0 => S754_zero false
  | Zpos p => of_ratio false p (Qden q)
  | Zneg p => of_ratio true p (Qden q)
  end.

Definition of_Z (z : Z) : float := of_Q (inject_Z z).

(** The exact value of a finite float; [0] for the zeros, infinities and
    NaN. *)
Definition to_Q (x : float) : Q :=
  match x with
  | S754_finite s m e =>
      let v := match e with
               | Zneg d => Zpos m # Pos.pow 2 d
               | _ => inject_Z (Zpos m * 2 ^ e)
               end in
      if s then Qopp v else v
  | _ => 0
  end.


End F.

(* ------------------------------------------------------------------ *)
(** ** Numbers: [round] and [format] *)

Module Num.

Definition Qlt_bool (x y : Q) : bool := negb (Qle_bool y x).

(** Round half to even of a rational, as Python's [round] and [format]
    apply it to the exact value of a float. *)
Definition round_half_even (y : Q) : Z :=
  let f := Qfloor y in
  let r := (y - inject_Z f)%Q in
  if Qlt_bool r (1#2) then f
  else if Qlt_bool (1#2) r then (f + 1)%Z
  else if Z.even f then f else (f + 1)%Z.

(** [round(x, 6)] on a float: CPython rounds the exact value of [x] to 6
    decimals (half to even) and reads the decimal text back as the nearest
    float; the sign is kept, so a negative [x] may give [-0.0]; NaN and the
    infinities are returned unchanged. *)
Definition round6 (x : F.float) : F.float :=
  match x with
  | S754_finite s _ _ =>
      match round_half_even (Qabs (F.to_Q x) * (1000000#1)) with
      | Zpos k => F.of_ratio s k 1000000
      | _ => S754_zero s
      end
  | _ => x
  end.

(** The digits of [f"{v:.4f}"] for a rational [v >= 0]. *)
Definition digits4 (v : Q) : string :=
  let m := Z.to_N (round_half_even (v * (10000#1))) in
  (Str.str_N (m / 10000) ++ "." ++ Str.pad4 (m mod 10000))%string.

Definition sign_text (s : bool) : string := if s then "-" else EmptyString.

(** [f"{x:.4f}"] on a float: the sign bit (so [-0.0] prints [-0.0000]), then
    the exact value rounded half to even to 4 decimals; [inf], [-inf] and
    [nan] for the others. *)
Definition fmt4 (x : F.float) : string :=
  match x with
  | S754_nan => "nan"
  | S754_infinity s => (sign_text s ++ "inf")%string
  | S754_zero s | S754_finite s _ _ => (sign_text s ++ digits4 (Qabs (F.to_Q x)))%string
  end.

End Num.

(* ------------------------------------------------------------------ *)
(** ** Paths and the file system *)

Record path := mkPath { pdir : list string; pname : string }.

Definition path_eq_dec (p q : path) : {p = q} + {p <> q}.
Proof. decide equality; [apply string_dec | apply list_eq_dec, string_dec]. Defined.

(** [p / s]. *)
Definition child (p : path) (s : string) : path :=
  mkPath (pdir p ++ [pname p]) s.

(** [PurePath.with_suffix]: the old suffix starts at the last dot, when that
    dot is neither the first nor the last character of the name. *)
Definition with_suffix (p : path) (suf : string) : path :=
  let n := pname p in
  match Str.rfind_dot n with
  | Some i =>
      if (0 <? i) && (i <? String.length n - 1)
      then mkPath (pdir p) (substring 0 i n ++ suf)%string
      else mkPath (pdir p) (n ++ suf)%string
  | None => mkPath (pdir p) (n ++ suf)%string
  end.

Definition fs := path -> option string.

Definition upd (f : fs) (p : path) (v : option string) : fs :=
  fun q => if path_eq_dec q p then v else f q.

(** The file-system operations [main] and [fetch_csv] perform. *)
Inductive fsop :=
| Open_wb (p : path)              (* open(p, "wb"): create or truncate *)
| Write_chunk (p : path) (c : string)   (* f.write(chunk) *)
| Replace (src dst : path)        (* src.replace(dst): atomic rename *)
| Unlink (p : path)               (* p.unlink(missing_ok=True) *)
| Write_text (p : path) (s : string).   (* open(p, "w").write(s) *)

(** One operation; [None] when it raises (renaming a missing file). *)
Definition apply_op (f : fs) (o : fsop) : option fs :=
  match o with
  | Open_wb p => Some (upd f p (Some EmptyString))
  | Write_chunk p c =>
      Some (upd f p (Some (match f p with Some s => s | None => EmptyString end ++ c)%string))
  | Replace s d =>
      match f s with
      | Some c => Some (upd (upd f s None) d (Some c))
      | None => None
      end
  | Unlink p => Some (upd f p None)
  | Write_text p s => Some (upd f p (Some s))
  end.

Fixpoint apply_ops (ops : list fsop) (f : fs) : option fs :=
  match ops with
  | [] => Some f
  | o :: ops' => match apply_op f o with
                 | Some f' => apply_ops ops' f'
                 | None => None
                 end
  end.

Definition ops_touch (o : fsop) : list path :=
  match o with
  | Open_wb p | Write_chunk p _ | Unlink p | Write_text p _ => [p]
  | Replace s d => [s; d]
  end.

(* ------------------------------------------------------------------ *)
(** ** Grid enumeration: [frange] and [generate_points] *)

Module Grid.

(** [1e-9]. *)
Definition eps : F.float := Eval vm_compute in F.of_Q (1 # 1000000000).

(** The generator [frange] run to its end:
    [x = start; while x <= stop + 1e-9: yield x; x += step], with float
    addition and comparison.  [fuel] bounds the number of evaluations of the
    loop guard: [Some xs] is the whole output when the loop ends within
    [fuel] evaluations, [None] that it has not ended by then. *)
Fixpoint frange (fuel : nat) (x stop step : F.float) : option (list F.float) :=
  match fuel with
  | O => None
  | S fuel' =>
      if F.leb x (F.add stop eps)
      then option_map (cons x) (frange fuel' (F.add x step) stop step)
      else Some []
  end.

Record bbox := mkBbox { lat_min : F.float; lat_max : F.float; lon_min : F.float; lon_max : F.float }.

(** [list(generate_points(bbox, dlon, dlat))]: the longitudes are listed
    first, then the latitudes; latitudes outer, longitudes inner, each
    coordinate passed through [round(., 6)].  [None] when one of the two
    [frange] loops has not ended within [fuel] evaluations of its guard. *)
Definition generate_points (fuel : nat) (b : bbox) (dlon dlat : F.float)
  : option (list (F.float * F.float)) :=
  match frange fuel (lon_min b) (lon_max b) dlon with
  | None => None
  | Some lons =>
      match frange fuel (lat_min b) (lat_max b) dlat with
      | None => None
      | Some lats =>
          Some (flat_map (fun lat => map (fun lon => (Num.round6 lat, Num.round6 lon)) lons) lats)
      end
  end.

End Grid.

(* ------------------------------------------------------------------ *)
(** ** Artifact naming *)

(** [fname = f"nsrdb_{year}_{lat:.4f}_{lon:.4f}.csv"]. *)
Definition artifact_name (year : Z) (lat lon : F.float) : string :=
  ("nsrdb_" ++ Str.str_Z year ++ "_" ++ Num.fmt4 lat ++ "_" ++ Num.fmt4 lon ++ ".csv")%string.

(** [out_path = out_root / f"{year}" / fname]. *)
Definition out_path (out_root : path) (year : Z) (lat lon : F.float) : path :=
  child (child out_root (Str.str_Z year)) (artifact_name year lat lon).

Definition part_path (out : path) : path := with_suffix out ".part".
Definition err_path (out : path) : path := with_suffix out ".err.txt".

(* ------------------------------------------------------------------ *)
(** ** Validity check *)

(** The two library calls of [looks_like_valid_csv]: [csv_first_row] is
    [next(csv.reader(f), None)] on the bytes of a file (opened as UTF-8 with
    [errors="ignore"]): [None] when there is no row or reading raises; and
    [str_upper] is [str.upper] on a header field.  A Python string is
    represented by its UTF-8 bytes. *)
Class CsvReader := {
  csv_first_row : string -> option (list string);
  str_upper : string -> string
}.

Definition header_ok `{CsvReader} (header : list string) : bool :=
  negb (match header with [] => true | _ => false end) &&
  existsb (fun h => Str.containsb "GHI" (str_upper h)) header.

Section Validity.
Context `{CsvReader}.

(** [looks_like_valid_csv]: a missing file makes [open] raise, which the
    [except] turns into [False]. *)
Definition looks_like_valid_csv (f : fs) (p : path) : bool :=
  match f p with
  | None => false
  | Some text =>
      match csv_first_row text with
      | None => false
      | Some header => header_ok header
      end
  end.

End Validity.

(** [csv.reader] for the default dialect, after CPython's [_csv] module:
    the state machine of [parse_process_char] ([strict=False],
    [doublequote=True], no escape character, [skipinitialspace=False]),
    fed one line at a time by [Reader_iternext] and then an end-of-line
    mark.  A file opened with [newline=""] yields lines ending after ["\n"],
    ["\r\n"] or a lone ["\r"].  The file's text is taken as its characters:
    UTF-8 decoding with [errors="ignore"] is the identity on ASCII text. *)
Module PyCsv.

Definition LF : ascii := ascii_of_nat 10.
Definition CR : ascii := ascii_of_nat 13.
Definition DQ : ascii := ascii_of_nat 34.

Definition is_nl (c : ascii) : bool := Ascii.eqb c LF || Ascii.eqb c CR.

(** A character with no special meaning for the default dialect: not a
    line break, the quote character or the delimiter. *)
Definition plain_char (c : ascii) : bool :=
  negb (is_nl c) && negb (Ascii.eqb c DQ) && negb (Ascii.eqb c ",").

(** A field as [csv.writer] writes it with [quoting=csv.QUOTE_ALL]: between
    quotes, each quote doubled. *)
Fixpoint double_quotes (s : string) : string :=
  match s with
  | EmptyString => EmptyString
  | String c s' =>
      if Ascii.eqb c DQ then String DQ (String DQ (double_quotes s'))
      else String c (double_quotes s')
  end.

Definition quote_all (s : string) : string :=
  String DQ (double_quotes s ++ String DQ EmptyString).

(** [csv.field_size_limit()] by default: [128 * 1024]. *)
Definition field_limit : nat := 128 * 1024.

Inductive ParserState :=
| START_RECORD | START_FIELD | IN_FIELD | IN_QUOTED_FIELD
| QUOTE_IN_QUOTED_FIELD | EAT_CRNL.

(** A character of a line, or the [EOL] mark fed after each line. *)
Inductive sym := Ch (c : ascii) | EOL.

Record reader := mkReader {
  state : ParserState;
  field : string;
  field_len : nat;
  fields : list string
}.

Definition set_state (r : reader) (s : ParserState) : reader :=
  mkReader s (field r) (field_len r) (fields r).

(** [parse_save_field], followed by the state change of its caller. *)
Definition save_field (r : reader) (s : ParserState) : reader :=
  mkReader s EmptyString 0 (fields r ++ [field r]).

(** [parse_add_char]: [None] is the [csv.Error] "field larger than field
    limit". *)
Definition add_char (r : reader) (c : ascii) (s : ParserState) : option reader :=
  if Nat.leb field_limit (field_len r) then None
  else Some (mkReader s (field r ++ String c EmptyString) (S (field_len r)) (fields r)).

Definition start_field (r : reader) (x : sym) : option reader :=
  match x with
  | EOL => Some (save_field r START_RECORD)
  | Ch c =>
      if is_nl c then Some (save_field r EAT_CRNL)
      else if Ascii.eqb c DQ then Some (set_state r IN_QUOTED_FIELD)
      else if Ascii.eqb c "," then Some (save_field r START_FIELD)
      else add_char r c IN_FIELD
  end.

(** [parse_process_char]; [None] is a [csv.Error]. *)
Definition parse_process_char (r : reader) (x : sym) : option reader :=
  match state r with
  | START_RECORD =>
      match x with
      | EOL => Some r
      | Ch c => if is_nl c then Some (set_state r EAT_CRNL)
                else start_field (set_state r START_FIELD) x
      end
  | START_FIELD => start_field r x
  | IN_FIELD =>
      match x with
      | EOL => Some (save_field r START_RECORD)
      | Ch c =>
          if is_nl c then Some (save_field r EAT_CRNL)
          else if Ascii.eqb c "," then Some (save_field r START_FIELD)
          else add_char r c IN_FIELD
      end
  | IN_QUOTED_FIELD =>
      match x with
      | EOL => Some r
      | Ch c =>
          if Ascii.eqb c DQ then Some (set_state r QUOTE_IN_QUOTED_FIELD)
          else add_char r c IN_QUOTED_FIELD
      end
  | QUOTE_IN_QUOTED_FIELD =>
      match x with
      | EOL => Some (save_field r START_RECORD)
      | Ch c =>
          if Ascii.eqb c DQ then add_char r c IN_QUOTED_FIELD
          else if Ascii.eqb c "," then Some (save_field r START_FIELD)
          else if is_nl c then Some (save_field r EAT_CRNL)
          else add_char r c IN_FIELD
      end
  | EAT_CRNL =>
      match x with
      | EOL => Some (set_state r START_RECORD)
      | Ch c => if is_nl c then Some r else None
      end
  end.

(** The characters of one line, then [EOL]. *)
Fixpoint process_line (r : reader) (l : string) : option reader :=
  match l with
  | EmptyString => parse_process_char r EOL
  | String c l' =>
      match parse_process_char r (Ch c) with
      | Some r' => process_line r' l'
      | None => None
      end
  end.

(** The lines of a text file opened with [newline=""]. *)
Fixpoint lines (s : string) : list string :=
  match s with
  | EmptyString => []
  | String c s' =>
      if Ascii.eqb c LF then String c EmptyString :: lines s'
      else if Ascii.eqb c CR then
        match s' with
        | String d s'' =>
            if Ascii.eqb d LF then String c (String d EmptyString) :: lines s''
            else String c EmptyString :: lines s'
        | EmptyString => [String c EmptyString]
        end
      else
        match lines s' with
        | [] => [String c EmptyString]
        | l :: ls => String c l :: ls
        end
  end.

(** [parse_reset]. *)
Definition reset : reader := mkReader START_RECORD EmptyString 0 [].

(** [Reader_iternext]: [Some (Some row)] for a row, [Some None] at the end
    of the input ([StopIteration]), [None] when [csv.Error] is raised. *)
Fixpoint next_row (r : reader) (ls : list string) : option (option (list string)) :=
  match ls with
  | [] =>
      if negb (Nat.eqb (field_len r) 0) ||
         match state r with IN_QUOTED_FIELD => true | _ => false end
      then Some (Some (fields (save_field r START_RECORD)))
      else Some None
  | l :: ls' =>
      match process_line r l with
      | None => None
      | Some r' =>
          match state r' with
          | START_RECORD => Some (Some (fields r'))
          | _ => next_row r' ls'
          end
      end
  end.

(** [next(csv.reader(f))] on a file whose text is [text]. *)
Definition first_row (text : string) : option (option (list string)) :=
  next_row reset (lines text).

End PyCsv.

(** [next(r, None)] of [looks_like_valid_csv]: no row gives [None], and a
    [csv.Error] is caught by its [except] clause, which also returns
    [False].  The reader runs on the bytes of the file and [Str.upper] maps
    [a-z] only: this instance is CPython's on ASCII text, where decoding is
    the identity; on other bytes it is not (a field [GH] followed by the
    dotless i, upper-cased by Python to [GHI], is not valid here). *)
Definition py_csv : CsvReader := {|
  csv_first_row := fun text => match PyCsv.first_row text with
                               | Some (Some row) => Some row
                               | _ => None
                               end;
  str_upper := Str.upper
|}.

(* ------------------------------------------------------------------ *)
(** ** The world and the state-and-exception monad *)

(** A response of [requests.get]: a status with the body as delivered by
    [iter_content], or an exception raised by [requests] (timeout,
    connection reset). *)
Inductive response :=
| Resp (status : Z) (chunks : list string)
| Net_failure (msg : string).

Definition request := (Z * F.float * F.float)%type.

Inductive event :=
| Ev_get (r : request)
| Ev_sleep (secs : Q).

Record world := mkWorld {
  w_fs : fs;
  w_server : nat -> response;
  w_log : list event
}.

Definition is_get (e : event) : bool :=
  match e with Ev_get _ => true | Ev_sleep _ => false end.

Definition ncalls (w : world) : nat := length (filter is_get (w_log w)).

Definition set_fs (w : world) (f : fs) : world := mkWorld f (w_server w) (w_log w).
Definition log_ev (w : world) (e : event) : world :=
  mkWorld (w_fs w) (w_server w) (e :: w_log w).

(** Python exceptions the code can meet. *)
Inductive exn :=
| ApiError (msg : string)
| RequestError (msg : string)   (* raised by [requests] *)
| OSError (msg : string).

(** [str(e)]. *)
Definition exn_msg (e : exn) : string :=
  match e with ApiError m | RequestError m | OSError m => m end.

Inductive result (A : Type) := Ok (a : A) | Exc (e : exn).
Arguments Ok {A} a.
Arguments Exc {A} e.

Definition M (A : Type) := world -> result A * world.

Definition ret {A} (a : A) : M A := fun w => (Ok a, w).
Definition raise {A} (e : exn) : M A := fun w => (Exc e, w).
Definition bind {A B} (m : M A) (k : A -> M B) : M B :=
  fun w => match m w with
           | (Ok a, w') => k a w'
           | (Exc e, w') => (Exc e, w')
           end.
(** [try: m except Exception as e: h(e)]. *)
Definition catch {A} (m : M A) (h : exn -> M A) : M A :=
  fun w => match m w with
           | (Ok a, w') => (Ok a, w')
           | (Exc e, w') => h e w'
           end.

Notation "x <- m ;; k" := (bind m (fun x => k)) (at level 61, m at next level, right associativity).
Notation "m ;;; k" := (bind m (fun _ => k)) (at level 61, right associativity).

Definition get_fs : M fs := fun w => (Ok (w_fs w), w).

Definition run_op (o : fsop) : M unit :=
  fun w => match apply_op (w_fs w) o with
           | Some f => (Ok tt, set_fs w f)
           | None => (Exc (OSError "No such file or directory"), w)
           end.

Fixpoint run_ops (ops : list fsop) : M unit :=
  match ops with
  | [] => ret tt
  | o :: ops' => run_op o ;;; run_ops ops'
  end.

(** [time.sleep(s)]. *)
Definition sleep (s : Q) : M unit := fun w => (Ok tt, log_ev w (Ev_sleep s)).

(** [requests.get(url, params=params, ...)]: the next scripted response. *)
Definition requests_get (r : request) : M response :=
  fun w => (Ok (w_server w (ncalls w)), log_ev w (Ev_get r)).

(* ------------------------------------------------------------------ *)
(** ** [fetch_csv] and its retry decorator *)

Definition nonempty (c : string) : bool :=
  match c with EmptyString => false | _ => true end.

(** The file operations of a successful response: stream the chunks into
    [out.with_suffix(".part")], then [tmp.replace(out_path)]. *)
Definition fetch_ops (out : path) (chunks : list string) : list fsop :=
  Open_wb (part_path out)
  :: map (Write_chunk (part_path out)) (filter nonempty chunks)
  ++ [Replace (part_path out) out].

(** [resp.text]: the whole body. *)
Definition body_text (chunks : list string) : string :=
  fold_right (fun c acc => (c ++ acc)%string) EmptyString chunks.

Definition rate_limited_msg : string := "Rate limited (429). Retrying...".

(** The undecorated body of [fetch_csv]. *)
Definition fetch_csv_body (r : request) (out : path) : M unit :=
  resp <- requests_get r ;;
  match resp with
  | Net_failure m => raise (RequestError m)
  | Resp st chunks =>
      if (st =? 429)%Z then raise (ApiError rate_limited_msg)
      else if (400 <=? st)%Z then
        raise (ApiError ("HTTP " ++ Str.str_Z st ++ ": " ++
                         substring 0 200 (body_text chunks))%string)
      else run_ops (fetch_ops out chunks)
  end.

Module Tenacity.

(** [retry_if_exception_type(ApiError)]. *)
Definition retry_if (e : exn) : bool :=
  match e with ApiError _ => true | _ => false end.

(** [stop_after_attempt(6)]: stop once attempt number [n] reached 6. *)
Definition stop (n : nat) : bool := 6 <=? n.

(** [wait_exponential(multiplier=1, min=1, max=60)] after attempt [n]:
    [max(max(0, min), min(multiplier * 2 ** (n - 1), max))]. *)
Definition wait (n : nat) : Q :=
  inject_Z (Z.max 1 (Z.min (2 ^ (Z.of_nat n - 1)) 60)).

(** Attempt number [n] of [body]; [budget] bounds the recursion and is
    [6 - n] in [retrying], so the [stop] test is what ends the loop. *)
Fixpoint attempt (budget : nat) (n : nat) (body : M unit) : M unit :=
  fun w =>
    match body w with
    | (Ok a, w1) => (Ok a, w1)
    | (Exc e, w1) =>
        if retry_if e then
          if stop n then (Exc e, w1)          (* reraise=True *)
          else match budget with
               | O => (Exc e, w1)
               | S b => (sleep (wait n) ;;; attempt b (S n) body) w1
               end
        else (Exc e, w1)
    end.

Definition retrying (body : M unit) : M unit := attempt 5 1 body.

(** The events of [k] attempts of a body that issues one request, starting
    at attempt number [n], in chronological order. *)
Fixpoint trace (r : request) (n k : nat) : list event :=
  match k with
  | O => []
  | S O => [Ev_get r]
  | S k' => Ev_get r :: Ev_sleep (wait n) :: trace r (S n) k'
  end.

End Tenacity.

(** [fetch_csv] as decorated with [@retry(...)]. *)
Definition fetch_csv (r : request) (out : path) : M unit :=
  Tenacity.retrying (fetch_csv_body r out).

(* ------------------------------------------------------------------ *)
(** ** The body of [main] *)

Definition invalid_msg : string :=
  "Downloaded file didn’t look like NSRDB CSV; will retry later.".

(** Which way the loop body left: [continue], the end of the [try], or the
    [except] handler with the text it wrote. *)
Inductive outcome := Skipped | Fetched | Failed (msg : string).

(** [with open(path, "w", encoding="utf-8") as ef: ef.write(text)] in the
    [except] handler of the loop.  It is the one file operation of the loop
    body outside the [try], so whether the operating system accepts it
    decides whether an error leaves the loop.  The class leaves the writer
    open: [os_write] is the one that always succeeds, and the instance used
    wherever no other is named; [refusing ro] raises [PermissionError] on
    the paths [ro] (a read-only file, a directory of that name, ...). *)
Class ErrWriter := write_text : path -> string -> M unit.

#[export] Instance os_write : ErrWriter := fun p s => run_op (Write_text p s).

Definition refusing (ro : path -> bool) : ErrWriter :=
  fun p s => if ro p then raise (OSError "[Errno 13] Permission denied")
             else run_op (Write_text p s).

Section Main.
Context `{CsvReader} `{ErrWriter}.

Definition exists_b (f : fs) (p : path) : bool :=
  match f p with Some _ => true | None => false end.

(** One iteration of [for lat, lon in points]. *)
Definition process_item (out_root : path) (sleep_s : Q) (year : Z) (pt : F.float * F.float)
  : M outcome :=
  let '(lat, lon) := pt in
  let out := out_path out_root year lat lon in
  f <- get_fs ;;
  if exists_b f out && looks_like_valid_csv f out then ret Skipped
  else
    o <- catch (fetch_csv (year, lat, lon) out ;;;
                f' <- get_fs ;;
                if negb (looks_like_valid_csv f' out)
                then run_op (Unlink out) ;;; raise (ApiError invalid_msg)
                else ret Fetched)
               (fun e => write_text (err_path out) (exn_msg e) ;;;
                         ret (Failed (exn_msg e))) ;;
    sleep sleep_s ;;;
    ret o.

Fixpoint for_points (out_root : path) (sleep_s : Q) (year : Z) (pts : list (F.float * F.float))
  : M (list outcome) :=
  match pts with
  | [] => ret []
  | pt :: pts' =>
      o <- process_item out_root sleep_s year pt ;;
      os <- for_points out_root sleep_s year pts' ;;
      ret (o :: os)
  end.

(** [for year in years: ... for lat, lon in points: ...]. *)
Fixpoint for_years (out_root : path) (sleep_s : Q) (years : list Z) (pts : list (F.float * F.float))
  : M (list outcome) :=
  match years with
  | [] => ret []
  | y :: ys =>
      os <- for_points out_root sleep_s y pts ;;
      os' <- for_years out_root sleep_s ys pts ;;
      ret (os ++ os')
  end.

Record config := mkConfig {
  out_dir : path;
  years : list Z;
  bbox : Grid.bbox;
  dlon : F.float;
  dlat : F.float;
  sleep_between_calls : Q
}.

(** [main] after the credentials and the configuration are loaded; [None]
    when [generate_points] has not ended within [fuel] steps of each
    [frange] loop. *)
Definition main_body (fuel : nat) (cfg : config) : option (M (list outcome)) :=
  match Grid.generate_points fuel (bbox cfg) (dlon cfg) (dlat cfg) with
  | Some pts => Some (for_years (out_dir cfg) (sleep_between_calls cfg) (years cfg) pts)
  | None => None
  end.

End Main.

(* ------------------------------------------------------------------ *)
(** ** Sample inputs *)

Module Sample.

Definition newline : ascii := ascii_of_nat 10.

Fixpoint first_line (s : string) : string :=
  match s with
  | EmptyString => EmptyString
  | String c s' => if Ascii.eqb c newline then EmptyString else String c (first_line s')
  end.

Fixpoint split_commas (s : string) : list string :=
  match s with
  | EmptyString => [EmptyString]
  | String c s' =>
      let r := split_commas s' in
      if Ascii.eqb c "," then EmptyString :: r
      else match r with
           | fld :: rest => String c fld :: rest
           | [] => [String c EmptyString]
           end
  end.

(** A CSV reader for unquoted ASCII text: the first line split at commas. *)
Definition simple_csv : CsvReader := {|
  csv_first_row := fun text => match text with
                               | EmptyString => None
                               | _ => Some (split_commas (first_line text))
                               end;
  str_upper := Str.upper
|}.

Definition root : path := mkPath [] "data".
Definition empty_fs : fs := fun _ => None.

Definition good_body : string := ("Year,Month,GHI,DNI" ++ String newline "2020,1,0,0")%string.
Definition bad_body : string := "<html>Service Unavailable</html>".

(** The point (8.0, 102.0). *)
Definition lat8 : F.float := Eval vm_compute in F.of_Z 8.
Definition lon102 : F.float := Eval vm_compute in F.of_Z 102.

Definition out : path := out_path root 2020 lat8 lon102.

Definition world_of (f : fs) (server : nat -> response) : world := mkWorld f server [].

(** The artifact is already on disk and valid. *)
Definition w_valid : world :=
  world_of (upd empty_fs out (Some good_body)) (fun _ => Net_failure "unreachable").

(** [n] responses 429, then a valid CSV. *)
Definition server_429s (n : nat) : nat -> response :=
  fun i => if (i <? n)%nat then Resp 429 [] else Resp 200 [good_body].

(** An empty data directory and a server that answers two 429s, then valid
    CSVs. *)
Definition w_fresh : world := world_of empty_fs (server_429s 2).

(** A timeout on the first request, then a valid CSV. *)
Definition server_timeout_then_ok : nat -> response :=
  fun i => if (i =? 0)%nat then Net_failure "Read timed out." else Resp 200 [good_body].

(** An HTML page with status 200 on the first request, then a valid CSV. *)
Definition server_bad_then_ok : nat -> response :=
  fun i => if (i =? 0)%nat then Resp 200 [bad_body] else Resp 200 [good_body].

(** A 503 on the first request, then HTML pages with status 200. *)
Definition server_503_then_bad : nat -> response :=
  fun i => if (i =? 0)%nat then Resp 503 [] else Resp 200 [bad_body].

(** A stale ErrorRecord next to a missing artifact. *)
Definition fs_stale_err : fs := upd empty_fs (err_path out) (Some rate_limited_msg).

(** A 1 degree box around (8, 102) on a half-degree grid: 9 points. *)
Definition box : Grid.bbox := Grid.mkBbox lat8 (F.of_Z 9) lon102 (F.of_Z 103).
Definition half : F.float := F.of_Q (1#2).
Definition box_points : list (F.float * F.float) :=
  match Grid.generate_points 10 box half half with Some l => l | None => [] end.

End Sample.

(* ================================================================== *)
(** * Lemmas *)

(** ** Strings and names *)

Lemma str_app_nil_r (s : string) : (s ++ EmptyString)%string = s.
Proof. induction s; simpl; congruence. Qed.

Lemma str_app_assoc (a b c : string) : (a ++ (b ++ c))%string = ((a ++ b) ++ c)%string.
Proof. induction a; simpl; congruence. Qed.

Lemma las_app (s t : string) :
  list_ascii_of_string (s ++ t) = list_ascii_of_string s ++ list_ascii_of_string t.
Proof. induction s; simpl; congruence. Qed.

(** Two names with different extensions differ. *)
Ltac suffix_clash H :=
  apply (f_equal (fun s => rev (list_ascii_of_string s))) in H;
  rewrite !las_app, !rev_app_distr in H; simpl in H; discriminate H.

Lemma csv_not_part (x y : string) : (x ++ ".csv")%string <> (y ++ ".part")%string.
Proof. intro H; suffix_clash H. Qed.

Lemma csv_not_err (x y : string) : (x ++ ".csv")%string <> (y ++ ".err.txt")%string.
Proof. intro H; suffix_clash H. Qed.

Lemma part_not_err (x y : string) : (x ++ ".part")%string <> (y ++ ".err.txt")%string.
Proof. intro H; suffix_clash H. Qed.

Lemma with_suffix_dir (p : path) (suf : string) : pdir (with_suffix p suf) = pdir p.
Proof.
  unfold with_suffix. destruct (Str.rfind_dot (pname p)) as [i|]; [|reflexivity].
  destruct (_ && _); reflexivity.
Qed.

Lemma with_suffix_name (p : path) (suf : string) :
  exists pre, pname (with_suffix p suf) = (pre ++ suf)%string.
Proof.
  unfold with_suffix. destruct (Str.rfind_dot (pname p)) as [i|];
    [destruct (_ && _)|]; simpl; eexists; reflexivity.
Qed.

Lemma artifact_name_csv (y : Z) (lat lon : F.float) :
  exists pre, artifact_name y lat lon = (pre ++ ".csv")%string.
Proof.
  unfold artifact_name. rewrite !str_app_assoc. eexists; reflexivity.
Qed.

(** The three files of an item are pairwise distinct. *)
Lemma part_neq_out root y lat lon :
  part_path (out_path root y lat lon) <> out_path root y lat lon.
Proof.
  intro H. apply (f_equal pname) in H.
  destruct (with_suffix_name (out_path root y lat lon) ".part") as [a Ha].
  destruct (artifact_name_csv y lat lon) as [b Hb].
  unfold part_path in H. rewrite Ha in H. simpl in H. rewrite Hb in H.
  exact (csv_not_part _ _ (eq_sym H)).
Qed.

Lemma err_neq_out root y lat lon :
  err_path (out_path root y lat lon) <> out_path root y lat lon.
Proof.
  intro H. apply (f_equal pname) in H.
  destruct (with_suffix_name (out_path root y lat lon) ".err.txt") as [a Ha].
  destruct (artifact_name_csv y lat lon) as [b Hb].
  unfold err_path in H. rewrite Ha in H. simpl in H. rewrite Hb in H.
  exact (csv_not_err _ _ (eq_sym H)).
Qed.

Lemma err_neq_part (p : path) : err_path p <> part_path p.
Proof.
  intro H. apply (f_equal pname) in H.
  destruct (with_suffix_name p ".err.txt") as [a Ha].
  destruct (with_suffix_name p ".part") as [b Hb].
  unfold err_path, part_path in H. rewrite Ha, Hb in H.
  exact (part_not_err _ _ (eq_sym H)).
Qed.

(** ErrorRecord files: names ending in [.err.txt]. *)
Definition is_err_file (q : path) : Prop :=
  exists pre, pname q = (pre ++ ".err.txt")%string.

Lemma err_file_not_out q root y lat lon :
  is_err_file q -> q <> out_path root y lat lon.
Proof.
  intros [a Ha] ->. destruct (artifact_name_csv y lat lon) as [b Hb].
  simpl in Ha. rewrite Hb in Ha. exact (csv_not_err _ _ Ha).
Qed.

Lemma err_file_not_part q p : is_err_file q -> q <> part_path p.
Proof.
  intros [a Ha] ->. destruct (with_suffix_name p ".part") as [b Hb].
  unfold part_path in Ha. rewrite Hb in Ha. exact (part_not_err _ _ Ha).
Qed.

(** ** The file system *)

Lemma upd_same (f : fs) p v : upd f p v p = v.
Proof. unfold upd. destruct (path_eq_dec p p); congruence. Qed.

Lemma upd_other (f : fs) p v q : q <> p -> upd f p v q = f q.
Proof. unfold upd. destruct (path_eq_dec q p); congruence. Qed.

Lemma apply_ops_app (l1 l2 : list fsop) f :
  apply_ops (l1 ++ l2) f =
  match apply_ops l1 f with Some f1 => apply_ops l2 f1 | None => None end.
Proof.
  revert f; induction l1 as [|o l1 IH]; intro f; simpl; [reflexivity|].
  destruct (apply_op f o); [apply IH | reflexivity].
Qed.

Lemma body_text_filter (cs : list string) :
  body_text (filter nonempty cs) = body_text cs.
Proof.
  induction cs as [|c cs IH]; simpl; [reflexivity|].
  destruct c; simpl; rewrite IH; reflexivity.
Qed.

(** Streaming chunks into [t] appends them and touches nothing else. *)
Lemma write_chunks_ok (t : path) (cs : list string) (f : fs) (acc : string) :
  f t = Some acc ->
  exists f', apply_ops (map (Write_chunk t) cs) f = Some f' /\
             f' t = Some (acc ++ body_text cs)%string /\
             (forall q, q <> t -> f' q = f q).
Proof.
  revert f acc; induction cs as [|c cs IH]; intros f acc Ht; simpl.
  - exists f. rewrite str_app_nil_r. auto.
  - rewrite Ht.
    destruct (IH (upd f t (Some (acc ++ c)%string)) (acc ++ c)%string (upd_same _ _ _))
      as (f' & E & Hft & Hq).
    exists f'. split; [exact E|]. split.
    + rewrite Hft, str_app_assoc. reflexivity.
    + intros q Hqt. rewrite Hq by exact Hqt. apply upd_other, Hqt.
Qed.

(** A successful fetch ends with the whole body at [out] and no [.part]. *)
Lemma fetch_ops_ok (out : path) (cs : list string) (f : fs) :
  part_path out <> out ->
  exists f', apply_ops (fetch_ops out cs) f = Some f' /\
             f' out = Some (body_text cs) /\
             f' (part_path out) = None /\
             (forall q, q <> out -> q <> part_path out -> f' q = f q).
Proof.
  intro Hne. unfold fetch_ops. simpl. rewrite apply_ops_app.
  destruct (write_chunks_ok (part_path out) (filter nonempty cs)
              (upd f (part_path out) (Some EmptyString)) EmptyString (upd_same _ _ _))
    as (f1 & E1 & Ht1 & Hq1).
  rewrite E1. simpl. rewrite Ht1. simpl.
  eexists; split; [reflexivity|].
  rewrite body_text_filter. split; [apply upd_same|]. split.
  - rewrite upd_other by exact Hne. apply upd_same.
  - intros q H1 H2. rewrite upd_other, upd_other, Hq1, upd_other; auto.
Qed.

(** Every proper prefix of the operations leaves [out] untouched. *)
Lemma fetch_ops_prefix (out : path) (cs : list string) (f : fs) (k : nat) :
  (k < length (fetch_ops out cs))%nat ->
  exists f', apply_ops (firstn k (fetch_ops out cs)) f = Some f' /\
             (forall q, q <> part_path out -> f' q = f q).
Proof.
  unfold fetch_ops. intro Hk. destruct k as [|k]; simpl.
  - exists f. auto.
  - simpl in Hk. rewrite length_app, length_map in Hk. simpl in Hk.
    rewrite firstn_app, length_map.
    replace (k - length (filter nonempty cs))%nat with 0%nat by lia. simpl.
    rewrite app_nil_r, firstn_map.
    destruct (write_chunks_ok (part_path out) (firstn k (filter nonempty cs))
                (upd f (part_path out) (Some EmptyString)) EmptyString (upd_same _ _ _))
      as (f1 & E1 & _ & Hq1).
    exists f1. split; [exact E1|].
    intros q Hq. rewrite Hq1 by exact Hq. apply upd_other, Hq.
Qed.

(** Only the final rename touches [out]. *)
Lemma fetch_ops_touch_out (out : path) (cs : list string) (o : fsop) :
  part_path out <> out ->
  In o (fetch_ops out cs) -> In out (ops_touch o) ->
  o = Replace (part_path out) out.
Proof.
  intros Hne Hin Ht. unfold fetch_ops in Hin. destruct Hin as [<-|Hin].
  - simpl in Ht. destruct Ht as [H|[]]. congruence.
  - apply in_app_or in Hin. destruct Hin as [Hin|[<-|[]]]; [|reflexivity].
    apply in_map_iff in Hin. destruct Hin as (c & <- & _).
    simpl in Ht. destruct Ht as [H|[]]. congruence.
Qed.

(** ** The monad *)

Lemma run_ops_apply (ops : list fsop) (w : world) (f' : fs) :
  apply_ops ops (w_fs w) = Some f' -> run_ops ops w = (Ok tt, set_fs w f').
Proof.
  revert w; induction ops as [|o ops IH]; intros w E; simpl in *.
  - injection E as <-. destruct w; reflexivity.
  - unfold bind, run_op. destruct (apply_op (w_fs w) o) as [f1|] eqn:E1; [|discriminate].
    rewrite (IH (set_fs w f1) E). reflexivity.
Qed.

Lemma ncalls_get w r : ncalls (log_ev w (Ev_get r)) = S (ncalls w).
Proof. reflexivity. Qed.

Lemma ncalls_sleep w s : ncalls (log_ev w (Ev_sleep s)) = ncalls w.
Proof. reflexivity. Qed.

Lemma ncalls_set_fs w f : ncalls (set_fs w f) = ncalls w.
Proof. reflexivity. Qed.

(** A computation that keeps the server and only extends the log. *)
Definition grows {A} (m : M A) : Prop :=
  forall w r w', m w = (r, w') ->
  w_server w' = w_server w /\ exists new, w_log w' = new ++ w_log w.

Lemma grows_ret {A} (a : A) : grows (ret a).
Proof. intros w r w' E. injection E as _ <-. split; [reflexivity|]. exists []; reflexivity. Qed.

Lemma grows_raise {A} (e : exn) : grows (@raise A e).
Proof. intros w r w' E. injection E as _ <-. split; [reflexivity|]. exists []; reflexivity. Qed.

Lemma grows_get_fs : grows get_fs.
Proof. intros w r w' E. injection E as _ <-. split; [reflexivity|]. exists []; reflexivity. Qed.

Lemma grows_run_op o : grows (run_op o).
Proof.
  intros w r w' E. unfold run_op in E. destruct (apply_op (w_fs w) o);
    injection E as _ <-; (split; [reflexivity|exists []; reflexivity]).
Qed.

Lemma grows_sleep s : grows (sleep s).
Proof. intros w r w' E. injection E as _ <-. split; [reflexivity|]. exists [Ev_sleep s]; reflexivity. Qed.

Lemma grows_requests_get r : grows (requests_get r).
Proof. intros w x w' E. injection E as _ <-. split; [reflexivity|]. exists [Ev_get r]; reflexivity. Qed.

Lemma grows_bind {A B} (m : M A) (k : A -> M B) :
  grows m -> (forall a, grows (k a)) -> grows (bind m k).
Proof.
  intros Hm Hk w r w' E. unfold bind in E. destruct (m w) as [[a|e] w1] eqn:E1.
  - destruct (Hm _ _ _ E1) as [S1 [n1 L1]]. destruct (Hk a _ _ _ E) as [S2 [n2 L2]].
    split; [congruence|]. exists (n2 ++ n1). rewrite L2, L1, app_assoc. reflexivity.
  - injection E as _ <-. exact (Hm _ _ _ E1).
Qed.

Lemma grows_catch {A} (m : M A) (h : exn -> M A) :
  grows m -> (forall e, grows (h e)) -> grows (catch m h).
Proof.
  intros Hm Hh w r w' E. unfold catch in E. destruct (m w) as [[a|e] w1] eqn:E1.
  - injection E as _ <-. exact (Hm _ _ _ E1).
  - destruct (Hm _ _ _ E1) as [S1 [n1 L1]]. destruct (Hh e _ _ _ E) as [S2 [n2 L2]].
    split; [congruence|]. exists (n2 ++ n1). rewrite L2, L1, app_assoc. reflexivity.
Qed.

Lemma grows_run_ops ops : grows (run_ops ops).
Proof.
  induction ops as [|o ops IH]; simpl; [apply grows_ret|].
  apply grows_bind; [apply grows_run_op | intros _; exact IH].
Qed.

Lemma grows_attempt (body : M unit) :
  grows body -> forall b n, grows (Tenacity.attempt b n body).
Proof.
  intros Hb b. induction b as [|b IH]; intros n w r w' E; simpl in E;
    destruct (body w) as [[a|e] w1] eqn:E1;
    try (injection E as _ <-; exact (Hb _ _ _ E1)).
  - destruct (Tenacity.retry_if e), (Tenacity.stop n);
      injection E as _ <-; exact (Hb _ _ _ E1).
  - destruct (Tenacity.retry_if e); [destruct (Tenacity.stop n)|];
      try (injection E as _ <-; exact (Hb _ _ _ E1)).
    destruct (Hb _ _ _ E1) as [S1 [n1 L1]].
    assert (G : grows (sleep (Tenacity.wait n) ;;; Tenacity.attempt b (S n) body))
      by (apply grows_bind; [apply grows_sleep | intros _; apply IH]).
    destruct (G _ _ _ E) as [S2 [n2 L2]].
    split; [congruence|]. exists (n2 ++ n1). rewrite L2, L1, app_assoc. reflexivity.
Qed.

Lemma grows_fetch_csv_body r out : grows (fetch_csv_body r out).
Proof.
  unfold fetch_csv_body. apply grows_bind; [apply grows_requests_get|].
  intros [st cs|m]; [|apply grows_raise].
  destruct (st =? 429)%Z; [apply grows_raise|].
  destruct (400 <=? st)%Z; [apply grows_raise|apply grows_run_ops].
Qed.

Lemma grows_fetch_csv r out : grows (fetch_csv r out).
Proof. apply grows_attempt, grows_fetch_csv_body. Qed.

Lemma grows_ncalls {A} (m : M A) w r w' :
  grows m -> m w = (r, w') -> (ncalls w <= ncalls w')%nat.
Proof.
  intros G E. destruct (G _ _ _ E) as [_ [n L]]. unfold ncalls. rewrite L, filter_app, length_app. lia.
Qed.

(** A computation that leaves the log and the server alone. *)
Definition quiet {A} (m : M A) : Prop :=
  forall w r w', m w = (r, w') -> w_log w' = w_log w /\ w_server w' = w_server w.

Lemma quiet_run_ops ops : quiet (run_ops ops).
Proof.
  induction ops as [|o ops IH]; intros w r w' E; simpl in E.
  - injection E as _ <-. split; reflexivity.
  - unfold bind, run_op in E. destruct (apply_op (w_fs w) o) as [f1|].
    + destruct (IH _ _ _ E) as [L S]. split; [exact L | exact S].
    + injection E as _ <-. split; reflexivity.
Qed.

(** The body of [fetch_csv] issues exactly one request. *)
Lemma fetch_csv_body_calls r out w res w' :
  fetch_csv_body r out w = (res, w') ->
  w_log w' = Ev_get r :: w_log w /\ w_server w' = w_server w.
Proof.
  unfold fetch_csv_body, bind, requests_get. intro E.
  destruct (w_server w (ncalls w)) as [st cs|m].
  - destruct (st =? 429)%Z; [injection E as _ <-; split; reflexivity|].
    destruct (400 <=? st)%Z; [injection E as _ <-; split; reflexivity|].
    exact (quiet_run_ops _ _ _ _ E).
  - injection E as _ <-. split; reflexivity.
Qed.

(** Every run of [fetch_csv] issues at least one request. *)
Lemma fetch_csv_calls r out w res w' :
  fetch_csv r out w = (res, w') -> (S (ncalls w) <= ncalls w')%nat.
Proof.
  unfold fetch_csv, Tenacity.retrying. cbn [Tenacity.attempt]. intro E.
  destruct (fetch_csv_body r out w) as [r1 w1] eqn:E1.
  destruct (fetch_csv_body_calls _ _ _ _ _ E1) as [L1 _].
  assert (H1 : ncalls w1 = S (ncalls w)) by (unfold ncalls; rewrite L1; reflexivity).
  destruct r1 as [u|e].
  - injection E as _ <-. lia.
  - destruct (Tenacity.retry_if e); [destruct (Tenacity.stop 1)|];
      try (injection E as _ <-; lia).
    assert (G : grows (sleep (Tenacity.wait 1) ;;; Tenacity.attempt 4 2 (fetch_csv_body r out)))
      by (apply grows_bind; [apply grows_sleep | intros _; apply grows_attempt, grows_fetch_csv_body]).
    pose proof (grows_ncalls _ _ _ _ G E). lia.
Qed.

Section Items.
Context `{CsvReader}.

Lemma valid_exists (f : fs) (p : path) :
  looks_like_valid_csv f p = true -> exists_b f p = true.
Proof. unfold looks_like_valid_csv, exists_b. destruct (f p); congruence. Qed.

Lemma process_item_skip root sleep_s y lat lon w :
  looks_like_valid_csv (w_fs w) (out_path root y lat lon) = true ->
  process_item root sleep_s y (lat, lon) w = (Ok Skipped, w).
Proof.
  intro V. unfold process_item, bind, get_fs. cbv beta iota.
  rewrite V, (valid_exists _ _ V). reflexivity.
Qed.

(** The loop body when the artifact is missing or invalid. *)
Lemma process_item_fetch root sleep_s y lat lon w :
  let out := out_path root y lat lon in
  looks_like_valid_csv (w_fs w) out = false ->
  process_item root sleep_s y (lat, lon) w =
  match fetch_csv (y, lat, lon) out w with
  | (Ok _, w1) =>
      if looks_like_valid_csv (w_fs w1) out
      then (Ok Fetched, log_ev w1 (Ev_sleep sleep_s))
      else (Ok (Failed invalid_msg),
            log_ev (set_fs w1 (upd (upd (w_fs w1) out None) (err_path out) (Some invalid_msg)))
                   (Ev_sleep sleep_s))
  | (Exc e, w1) =>
      (Ok (Failed (exn_msg e)),
       log_ev (set_fs w1 (upd (w_fs w1) (err_path out) (Some (exn_msg e)))) (Ev_sleep sleep_s))
  end.
Proof.
  intros out V. unfold process_item, bind, get_fs. cbv beta iota. fold out.
  rewrite V, andb_false_r.
  unfold catch. destruct (fetch_csv (y, lat, lon) out w) as [[u|e] w1]; [|reflexivity].
  destruct (looks_like_valid_csv (w_fs w1) out); reflexivity.
Qed.

Lemma process_item_calls root sleep_s y lat lon w :
  looks_like_valid_csv (w_fs w) (out_path root y lat lon) = false ->
  (S (ncalls w) <= ncalls (snd (process_item root sleep_s y (lat, lon) w)))%nat.
Proof.
  intro V. rewrite (process_item_fetch _ _ _ _ _ _ V).
  destruct (fetch_csv (y, lat, lon) (out_path root y lat lon) w) as [r1 w1] eqn:E.
  pose proof (fetch_csv_calls _ _ _ _ _ E).
  destruct r1; [destruct (looks_like_valid_csv (w_fs w1) _)|]; simpl; rewrite ?ncalls_sleep; exact H0.
Qed.

End Items.

(* ================================================================== *)
(** * Claims *)

(** ** Skipping valid artifacts *)

(** C1: when the artifact of a WorkItem exists at its path and passes the
    validity check, the loop body takes [continue] and returns the world it
    was given: no request, no sleep, no file changed. *)
Theorem valid_artifact_skipped `{CsvReader} root sleep_s y lat lon w :
  exists_b (w_fs w) (out_path root y lat lon) = true ->
  looks_like_valid_csv (w_fs w) (out_path root y lat lon) = true ->
  process_item root sleep_s y (lat, lon) w = (Ok Skipped, w).
Proof. intros _ V. exact (process_item_skip _ _ _ _ _ _ V). Qed.

Lemma valid_artifact_skipped_witness :
  exists_b (w_fs Sample.w_valid) Sample.out = true /\
  @looks_like_valid_csv Sample.simple_csv (w_fs Sample.w_valid) Sample.out = true /\
  @process_item Sample.simple_csv _ Sample.root (1#4) 2020 (Sample.lat8, Sample.lon102) Sample.w_valid = (Ok Skipped, Sample.w_valid).
Proof.
  split; [reflexivity|]. split; [reflexivity|].
  apply (@valid_artifact_skipped Sample.simple_csv); reflexivity.
Defined.

(** ** Atomic publication *)

(** C2: a successful response is streamed into [out.with_suffix(".part")],
    which lies in the directory of [out] and differs from it; the only
    operation that touches [out] is the final rename.  Stopping after any
    proper prefix of the operations leaves [out] as it was; running them all
    leaves the whole body at [out]; [fetch_csv] on a 2xx/3xx response runs
    exactly these operations; and after a stop before the rename, a new
    run of the loop body on an item whose artifact was missing or invalid
    does not skip it but issues a request again. *)
Theorem fetch_publishes_atomically `{CsvReader} (root : path) (sleep_s : Q) (y : Z)
    (lat lon : F.float) (chunks : list string) (f : fs) :
  let out := out_path root y lat lon in
  let ops := fetch_ops out chunks in
  pdir (part_path out) = pdir out /\
  part_path out <> out /\
  (forall o, In o ops -> In out (ops_touch o) -> o = Replace (part_path out) out) /\
  (forall k, (k < length ops)%nat ->
     exists f', apply_ops (firstn k ops) f = Some f' /\ f' out = f out) /\
  (exists f', apply_ops ops f = Some f' /\ f' out = Some (body_text chunks)) /\
  (forall w st, w_fs w = f -> w_server w (ncalls w) = Resp st chunks ->
     st <> 429%Z -> (st < 400)%Z ->
     exists f', apply_ops ops f = Some f' /\
       fetch_csv_body (y, lat, lon) out w = (Ok tt, set_fs (log_ev w (Ev_get (y, lat, lon))) f')) /\
  (forall k f' w, (k < length ops)%nat -> looks_like_valid_csv f out = false ->
     apply_ops (firstn k ops) f = Some f' -> w_fs w = f' ->
     (S (ncalls w) <= ncalls (snd (process_item root sleep_s y (lat, lon) w)))%nat).
Proof.
  intros out ops.
  assert (Hne : part_path out <> out) by apply part_neq_out.
  assert (Pre : forall k, (k < length ops)%nat ->
            exists f', apply_ops (firstn k ops) f = Some f' /\ f' out = f out).
  { intros k Hk. destruct (fetch_ops_prefix out chunks f k Hk) as (f' & E & Hq).
    exists f'. split; [exact E | apply Hq; congruence]. }
  split; [apply with_suffix_dir|]. split; [exact Hne|].
  split; [intros o; apply fetch_ops_touch_out, Hne|]. split; [exact Pre|].
  split.
  { destruct (fetch_ops_ok out chunks f Hne) as (f' & E & Ho & _). eauto. }
  split.
  { intros w st Hf Hs H4 H5.
    destruct (fetch_ops_ok out chunks f Hne) as (f' & E & _). exists f'. split; [exact E|].
    unfold fetch_csv_body, bind, requests_get. rewrite Hs.
    replace (st =? 429)%Z with false by (symmetry; apply Z.eqb_neq; exact H4).
    replace (400 <=? st)%Z with false by (symmetry; apply Z.leb_gt; exact H5).
    apply run_ops_apply. simpl. rewrite Hf. exact E. }
  intros k f' w Hk V E Hw.
  apply process_item_calls.
  destruct (Pre k Hk) as (f2 & E2 & Ho). rewrite E in E2. injection E2 as E2. subst f2.
  change (out_path root y lat lon) with out.
  unfold looks_like_valid_csv in *. rewrite Hw, Ho. exact V.
Qed.

Lemma fetch_publishes_atomically_witness :
  let out := Sample.out in
  let ops := fetch_ops out [Sample.good_body] in
  (1 < length ops)%nat /\
  @looks_like_valid_csv Sample.simple_csv Sample.empty_fs out = false /\
  apply_ops (firstn 1 ops) Sample.empty_fs =
    Some (upd Sample.empty_fs (part_path out) (Some EmptyString)) /\
  (S (ncalls (Sample.world_of (upd Sample.empty_fs (part_path out) (Some EmptyString))
                              (fun _ => Resp 200 [Sample.good_body])))
   <= ncalls (snd (@process_item Sample.simple_csv _ Sample.root (1#4) 2020 (Sample.lat8, Sample.lon102)
                     (Sample.world_of (upd Sample.empty_fs (part_path out) (Some EmptyString))
                                      (fun _ => Resp 200 [Sample.good_body])))))%nat.
Proof.
  intros out ops.
  split; [vm_compute; lia|]. split; [reflexivity|]. split; [reflexivity|].
  refine (proj2 (proj2 (proj2 (proj2 (proj2 (proj2
            (@fetch_publishes_atomically Sample.simple_csv Sample.root (1#4) 2020 Sample.lat8 Sample.lon102
               [Sample.good_body] Sample.empty_fs)))))) 1%nat _ _ _ _ _ _);
    [vm_compute; lia | reflexivity | reflexivity | reflexivity].
Defined.

(** ** Retries *)

Lemma fetch_body_429 r out w cs :
  w_server w (ncalls w) = Resp 429 cs ->
  fetch_csv_body r out w = (Exc (ApiError rate_limited_msg), log_ev w (Ev_get r)).
Proof. intro Hs. unfold fetch_csv_body, bind, requests_get. rewrite Hs. reflexivity. Qed.

Lemma attempt_retry_step (body : M unit) b n w e w1 :
  body w = (Exc e, w1) -> Tenacity.retry_if e = true -> Tenacity.stop n = false ->
  Tenacity.attempt (S b) n body w =
  Tenacity.attempt b (S n) body (log_ev w1 (Ev_sleep (Tenacity.wait n))).
Proof. intros E R St. cbn [Tenacity.attempt]. rewrite E, R, St. reflexivity. Qed.

Lemma stop_false n : (n < 6)%nat -> Tenacity.stop n = false.
Proof. intro. unfold Tenacity.stop. apply Nat.leb_gt. lia. Qed.

(** Shape of every run of the retry loop around [fetch_csv_body]. *)
Lemma attempt_trace r out : forall b n w res w',
  (n + b = 6)%nat -> (1 <= n)%nat ->
  Tenacity.attempt b n (fetch_csv_body r out) w = (res, w') ->
  exists k, (1 <= k <= S b)%nat /\
    w_log w' = rev (Tenacity.trace r n k) ++ w_log w /\
    forall e, res = Exc e ->
      ((n + k - 1 = 6)%nat \/ Tenacity.retry_if e = false) /\
      exists wl, fetch_csv_body r out wl = (Exc e, w').
Proof.
  induction b as [|b IH]; intros n w res w' Hb Hn E; cbn [Tenacity.attempt] in E;
    destruct (fetch_csv_body r out w) as [[u|e] w1] eqn:E1;
    destruct (fetch_csv_body_calls _ _ _ _ _ E1) as [L1 _].
  - injection E as <- <-. exists 1%nat. split; [lia|]. split; [exact L1|]. discriminate.
  - exists 1%nat. split; [lia|].
    destruct (Tenacity.retry_if e) eqn:R; [destruct (Tenacity.stop n)|];
      injection E as <- <-; (split; [exact L1|]);
      intros e' [= <-]; (split; [lia || right; exact R | exists w; exact E1]).
  - injection E as <- <-. exists 1%nat. split; [lia|]. split; [exact L1|]. discriminate.
  - destruct (Tenacity.retry_if e) eqn:R.
    2:{ injection E as <- <-. exists 1%nat. split; [lia|]. split; [exact L1|].
        intros e' [= <-]. split; [right; exact R | exists w; exact E1]. }
    rewrite (stop_false n) in E by lia.
    unfold bind, sleep in E.
    destruct (IH (S n) _ _ _ ltac:(lia) ltac:(lia) E) as (k & Hk & L & Hres).
    exists (S k). split; [lia|]. split.
    + destruct k as [|k]; [lia|]. rewrite L. simpl. rewrite L1.
      rewrite <- !app_assoc. reflexivity.
    + intros e' He'. destruct (Hres e' He') as [[H1|H1] H2]; split; auto; left; lia.
Qed.

(** Every attempt answered by a 429 response. *)
Lemma attempt_all_429 r out : forall b n w,
  (n + b = 6)%nat ->
  (forall i, (i <= b)%nat -> exists cs, w_server w (ncalls w + i) = Resp 429 cs) ->
  exists w', Tenacity.attempt b n (fetch_csv_body r out) w = (Exc (ApiError rate_limited_msg), w') /\
             ncalls w' = (ncalls w + S b)%nat /\ w_fs w' = w_fs w /\ w_server w' = w_server w.
Proof.
  induction b as [|b IH]; intros n w Hb Hs.
  - destruct (Hs 0%nat ltac:(lia)) as [cs Hcs]. rewrite Nat.add_0_r in Hcs.
    cbn [Tenacity.attempt]. rewrite (fetch_body_429 r out w cs Hcs).
    replace (Tenacity.stop n) with true by (unfold Tenacity.stop; symmetry; apply Nat.leb_le; lia).
    eexists; split; [reflexivity|]. rewrite ncalls_get. split; [lia|]. split; reflexivity.
  - destruct (Hs 0%nat ltac:(lia)) as [cs Hcs]. rewrite Nat.add_0_r in Hcs.
    rewrite (attempt_retry_step _ _ _ _ _ _ (fetch_body_429 r out w cs Hcs) eq_refl (stop_false n ltac:(lia))).
    set (w1 := log_ev (log_ev w (Ev_get r)) (Ev_sleep (Tenacity.wait n))).
    destruct (IH (S n) w1 ltac:(lia)) as (w' & E & Hc & Hf & Hsv).
    { intros i Hi. destruct (Hs (S i) ltac:(lia)) as [cs' Hcs'].
      exists cs'. rewrite <- Hcs'. unfold w1. simpl. f_equal. unfold ncalls. simpl. lia. }
    exists w'. split; [exact E|]. unfold w1 in *. rewrite Hc. split; [unfold ncalls; simpl; lia|].
    split; [exact Hf | exact Hsv].
Qed.

Lemma fetch_body_ok r out w st chunks :
  part_path out <> out ->
  w_server w (ncalls w) = Resp st chunks -> st <> 429%Z -> (st < 400)%Z ->
  exists f', fetch_csv_body r out w = (Ok tt, set_fs (log_ev w (Ev_get r)) f') /\
             f' out = Some (body_text chunks).
Proof.
  intros Hne Hs H4 H5.
  destruct (fetch_ops_ok out chunks (w_fs w) Hne) as (f' & E & Ho & _).
  exists f'. split; [|exact Ho].
  unfold fetch_csv_body, bind, requests_get. rewrite Hs.
  replace (st =? 429)%Z with false by (symmetry; apply Z.eqb_neq; exact H4).
  replace (400 <=? st)%Z with false by (symmetry; apply Z.leb_gt; exact H5).
  apply run_ops_apply. exact E.
Qed.

(** [j] responses 429, then a 2xx/3xx response, within the budget. *)
Lemma attempt_429_then_ok r out st chunks :
  part_path out <> out -> st <> 429%Z -> (st < 400)%Z ->
  forall j b n w, (n + b = 6)%nat -> (j <= b)%nat ->
  (forall i, (i < j)%nat -> exists cs, w_server w (ncalls w + i) = Resp 429 cs) ->
  w_server w (ncalls w + j) = Resp st chunks ->
  exists w', Tenacity.attempt b n (fetch_csv_body r out) w = (Ok tt, w') /\
             ncalls w' = (ncalls w + S j)%nat /\ w_fs w' out = Some (body_text chunks).
Proof.
  intros Hne H4 H5 j. induction j as [|j IH]; intros b n w Hb Hj Hs Hok.
  - rewrite Nat.add_0_r in Hok.
    destruct (fetch_body_ok r out w st chunks Hne Hok H4 H5) as (f' & E & Ho).
    exists (set_fs (log_ev w (Ev_get r)) f').
    split; [destruct b; cbn [Tenacity.attempt]; rewrite E; reflexivity|].
    split; [rewrite ncalls_set_fs, ncalls_get; lia | exact Ho].
  - destruct b as [|b]; [lia|].
    destruct (Hs 0%nat ltac:(lia)) as [cs Hcs]. rewrite Nat.add_0_r in Hcs.
    rewrite (attempt_retry_step _ _ _ _ _ _ (fetch_body_429 r out w cs Hcs) eq_refl (stop_false n ltac:(lia))).
    set (w1 := log_ev (log_ev w (Ev_get r)) (Ev_sleep (Tenacity.wait n))).
    assert (Hc1 : ncalls w1 = S (ncalls w)) by reflexivity.
    destruct (IH b (S n) w1 ltac:(lia) ltac:(lia)) as (w' & E & Hc & Ho).
    + intros i Hi. destruct (Hs (S i) ltac:(lia)) as [cs' Hcs'].
      exists cs'. rewrite <- Hcs', Hc1.
      replace (S (ncalls w) + i)%nat with (ncalls w + S i)%nat by lia. reflexivity.
    + rewrite <- Hok, Hc1.
      replace (S (ncalls w) + j)%nat with (ncalls w + S j)%nat by lia. reflexivity.
    + exists w'. split; [exact E|]. split; [rewrite Hc, Hc1; lia | exact Ho].
Qed.

(** The file operations raise only [OSError]. *)
Lemma run_ops_exn ops : forall w e w', run_ops ops w = (Exc e, w') -> exists m, e = OSError m.
Proof.
  induction ops as [|o ops IH]; intros w e w' E; simpl in E; [discriminate|].
  unfold bind, run_op in E. destruct (apply_op (w_fs w) o) as [f1|].
  - exact (IH _ _ _ E).
  - injection E as <- _. eexists; reflexivity.
Qed.

(** A response with a status [>= 400] makes the body raise an error the
    decorator retries. *)
Lemma fetch_body_fail r out w st cs :
  w_server w (ncalls w) = Resp st cs -> (400 <= st)%Z ->
  exists e, fetch_csv_body r out w = (Exc e, log_ev w (Ev_get r)) /\ Tenacity.retry_if e = true.
Proof.
  intros Hs Hst. unfold fetch_csv_body, bind, requests_get. rewrite Hs.
  destruct (st =? 429)%Z; [eexists; split; reflexivity|].
  replace (400 <=? st)%Z with true by (symmetry; apply Z.leb_le; exact Hst).
  eexists; split; reflexivity.
Qed.

(** Conversely, an error the decorator retries comes from a response with a
    status [>= 400], and the body did nothing but send the request. *)
Lemma fetch_body_retry_inv r out w e w1 :
  fetch_csv_body r out w = (Exc e, w1) -> Tenacity.retry_if e = true ->
  exists st cs, w_server w (ncalls w) = Resp st cs /\ (400 <= st)%Z /\ w1 = log_ev w (Ev_get r).
Proof.
  unfold fetch_csv_body, bind, requests_get. intros E R.
  destruct (w_server w (ncalls w)) as [st cs|m].
  - destruct (st =? 429)%Z eqn:E4.
    + injection E as <- <-. apply Z.eqb_eq in E4. subst st. exists 429%Z, cs. auto with zarith.
    + destruct (400 <=? st)%Z eqn:E5.
      * injection E as <- <-. apply Z.leb_le in E5. exists st, cs. auto.
      * destruct (run_ops_exn _ _ _ _ E) as [m ->]. discriminate R.
  - injection E as <- _. discriminate R.
Qed.

(** Every run of the retry loop: [k] attempts, all but the last answered by
    a status [>= 400]; the result of the loop is the result of its last
    attempt, made with the [k]-th scripted response on the untouched file
    system; and a loop that ends before the sixth attempt has succeeded or
    met an error it does not retry. *)
Lemma attempt_run r out : forall b n w res w',
  (n + b = 6)%nat -> (1 <= n)%nat ->
  Tenacity.attempt b n (fetch_csv_body r out) w = (res, w') ->
  exists k, (1 <= k <= S b)%nat /\
    w_log w' = rev (Tenacity.trace r n k) ++ w_log w /\
    (forall i, (i < k - 1)%nat ->
       exists st cs, w_server w (ncalls w + i) = Resp st cs /\ (400 <= st)%Z) /\
    (exists wl, w_fs wl = w_fs w /\ w_server wl = w_server w /\
                ncalls wl = (ncalls w + (k - 1))%nat /\
                fetch_csv_body r out wl = (res, w')) /\
    ((n + k - 1 < 6)%nat -> res = Ok tt \/ exists e, res = Exc e /\ Tenacity.retry_if e = false).
Proof.
  induction b as [|b IH]; intros n w res w' Hb Hn E; cbn [Tenacity.attempt] in E;
    destruct (fetch_csv_body r out w) as [[u|e] w1] eqn:E1;
    destruct (fetch_csv_body_calls _ _ _ _ _ E1) as [L1 _].
  - injection E as <- <-. destruct u. exists 1%nat. split; [lia|]. split; [exact L1|].
    split; [intros; lia|]. split; [|left; reflexivity].
    exists w. rewrite Nat.add_0_r. auto.
  - assert (Er : res = Exc e /\ w' = w1)
      by (destruct (Tenacity.retry_if e); [destruct (Tenacity.stop n)|];
          injection E as <- <-; auto).
    destruct Er as [-> ->].
    exists 1%nat. split; [lia|]. split; [exact L1|]. split; [intros; lia|].
    split; [exists w; rewrite Nat.add_0_r; auto | lia].
  - injection E as <- <-. destruct u. exists 1%nat. split; [lia|]. split; [exact L1|].
    split; [intros; lia|]. split; [|left; reflexivity].
    exists w. rewrite Nat.add_0_r. auto.
  - destruct (Tenacity.retry_if e) eqn:R.
    2:{ injection E as <- <-. exists 1%nat. split; [lia|]. split; [exact L1|].
        split; [intros; lia|]. split; [exists w; rewrite Nat.add_0_r; auto|].
        intros _. right. exists e. auto. }
    destruct (fetch_body_retry_inv _ _ _ _ _ E1 R) as (st & cs & Hs & Hst & ->).
    rewrite (stop_false n) in E by lia.
    unfold bind, sleep in E.
    destruct (IH (S n) _ _ _ ltac:(lia) ltac:(lia) E) as (k & Hk & L & Hf & Hl & Hc).
    exists (S k). split; [lia|]. split.
    + destruct k as [|k]; [lia|]. rewrite L. simpl.
      rewrite <- !app_assoc. reflexivity.
    + split; [|split].
      * intros [|i] Hi; [exists st, cs; rewrite Nat.add_0_r; auto|].
        destruct (Hf i ltac:(lia)) as (st' & cs' & Hs' & Hst').
        exists st', cs'. split; [|exact Hst'].
        rewrite <- Hs'. simpl. f_equal. unfold ncalls. simpl. lia.
      * destruct Hl as (wl & Hfs & Hsv & Hn' & El). exists wl.
        split; [exact Hfs|]. split; [exact Hsv|]. split; [|exact El].
        rewrite Hn'. unfold ncalls. simpl. lia.
      * intros Hlt. apply Hc. lia.
Qed.

(** Every attempt answered by a status [>= 400]. *)
Lemma attempt_all_fail r out : forall b n w,
  (n + b = 6)%nat ->
  (forall i, (i <= b)%nat -> exists st cs, w_server w (ncalls w + i) = Resp st cs /\ (400 <= st)%Z) ->
  exists e w', Tenacity.attempt b n (fetch_csv_body r out) w = (Exc e, w') /\
    Tenacity.retry_if e = true /\ ncalls w' = (ncalls w + S b)%nat /\
    w_fs w' = w_fs w /\ w_server w' = w_server w.
Proof.
  induction b as [|b IH]; intros n w Hb Hs.
  - destruct (Hs 0%nat ltac:(lia)) as (st & cs & Hcs & Hst). rewrite Nat.add_0_r in Hcs.
    destruct (fetch_body_fail r out w st cs Hcs Hst) as (e & Eb & R).
    cbn [Tenacity.attempt]. rewrite Eb, R.
    replace (Tenacity.stop n) with true by (unfold Tenacity.stop; symmetry; apply Nat.leb_le; lia).
    exists e; eexists; split; [reflexivity|]. split; [exact R|].
    rewrite ncalls_get. split; [lia|]. split; reflexivity.
  - destruct (Hs 0%nat ltac:(lia)) as (st & cs & Hcs & Hst). rewrite Nat.add_0_r in Hcs.
    destruct (fetch_body_fail r out w st cs Hcs Hst) as (e & Eb & R).
    rewrite (attempt_retry_step _ _ _ _ _ _ Eb R (stop_false n ltac:(lia))).
    set (w1 := log_ev (log_ev w (Ev_get r)) (Ev_sleep (Tenacity.wait n))).
    destruct (IH (S n) w1 ltac:(lia)) as (e' & w' & E & R' & Hc & Hf & Hsv).
    { intros i Hi. destruct (Hs (S i) ltac:(lia)) as (st' & cs' & Hcs' & Hst').
      exists st', cs'. split; [|exact Hst']. rewrite <- Hcs'. unfold w1. simpl. f_equal.
      unfold ncalls. simpl. lia. }
    exists e', w'. split; [exact E|]. split; [exact R'|]. unfold w1 in *. rewrite Hc.
    split; [unfold ncalls; simpl; lia|]. split; [exact Hf | exact Hsv].
Qed.

(** A network failure at any attempt is raised at once. *)
Lemma attempt_net_failure r out b n w m :
  w_server w (ncalls w) = Net_failure m ->
  Tenacity.attempt b n (fetch_csv_body r out) w = (Exc (RequestError m), log_ev w (Ev_get r)).
Proof.
  intro Hs. destruct b; cbn [Tenacity.attempt];
    unfold fetch_csv_body at 1, bind, requests_get; rewrite Hs; reflexivity.
Qed.

(** [j] responses with a status [>= 400], then a 2xx/3xx response, within
    the budget. *)
Lemma attempt_fail_then_ok r out st chunks :
  part_path out <> out -> st <> 429%Z -> (st < 400)%Z ->
  forall j b n w, (n + b = 6)%nat -> (j <= b)%nat ->
  (forall i, (i < j)%nat -> exists st' cs, w_server w (ncalls w + i) = Resp st' cs /\ (400 <= st')%Z) ->
  w_server w (ncalls w + j) = Resp st chunks ->
  exists w', Tenacity.attempt b n (fetch_csv_body r out) w = (Ok tt, w') /\
             ncalls w' = (ncalls w + S j)%nat /\ w_fs w' out = Some (body_text chunks).
Proof.
  intros Hne H4 H5 j. induction j as [|j IH]; intros b n w Hb Hj Hs Hok.
  - rewrite Nat.add_0_r in Hok.
    destruct (fetch_body_ok r out w st chunks Hne Hok H4 H5) as (f' & E & Ho).
    exists (set_fs (log_ev w (Ev_get r)) f').
    split; [destruct b; cbn [Tenacity.attempt]; rewrite E; reflexivity|].
    split; [rewrite ncalls_set_fs, ncalls_get; lia | exact Ho].
  - destruct b as [|b]; [lia|].
    destruct (Hs 0%nat ltac:(lia)) as (st0 & cs & Hcs & Hst0). rewrite Nat.add_0_r in Hcs.
    destruct (fetch_body_fail r out w st0 cs Hcs Hst0) as (e & Eb & R).
    rewrite (attempt_retry_step _ _ _ _ _ _ Eb R (stop_false n ltac:(lia))).
    set (w1 := log_ev (log_ev w (Ev_get r)) (Ev_sleep (Tenacity.wait n))).
    assert (Hc1 : ncalls w1 = S (ncalls w)) by reflexivity.
    destruct (IH b (S n) w1 ltac:(lia) ltac:(lia)) as (w' & E & Hc & Ho).
    + intros i Hi. destruct (Hs (S i) ltac:(lia)) as (st' & cs' & Hcs' & Hst').
      exists st', cs'. split; [|exact Hst']. rewrite <- Hcs', Hc1.
      replace (S (ncalls w) + i)%nat with (ncalls w + S i)%nat by lia. reflexivity.
    + rewrite <- Hok, Hc1.
      replace (S (ncalls w) + j)%nat with (ncalls w + S j)%nat by lia. reflexivity.
    + exists w'. split; [exact E|]. split; [rewrite Hc, Hc1; lia | exact Ho].
Qed.

Lemma wait_doubling n :
  (1 <= n)%nat -> Tenacity.wait n = inject_Z (Z.min (2 ^ (Z.of_nat n - 1)) 60).
Proof.
  intro Hn. unfold Tenacity.wait. f_equal.
  assert (0 < 2 ^ (Z.of_nat n - 1))%Z by (apply Z.pow_pos_nonneg; lia).
  lia.
Qed.

(** C3: [fetch_csv] makes between one and six attempts; between attempts it
    sleeps [wait 1], [wait 2], ... where [wait n = min(2^(n-1), 60)], i.e.
    1, 2, 4, 8, 16; every attempt but the last was answered with a status
    [>= 400]; when it raises, it raises the error of its last attempt, after
    the sixth attempt or on an error it does not retry; a run that stops
    before the sixth attempt has succeeded or met an error it does not retry;
    six responses with a status [>= 400] make it raise the (retryable) error
    of the sixth, after six requests.  Five 429
    responses followed by a valid 2xx response publish the artifact after six
    requests; six 429 responses end the item in the [except] branch with an
    ErrorRecord holding the rate-limit message. *)
Theorem retry_bounded_backoff `{CsvReader} :
  (forall r out w res w', fetch_csv r out w = (res, w') ->
     exists k, (1 <= k <= 6)%nat /\
       w_log w' = rev (Tenacity.trace r 1 k) ++ w_log w /\
       (forall e, res = Exc e ->
         (k = 6%nat \/ Tenacity.retry_if e = false) /\
         exists wl, fetch_csv_body r out wl = (Exc e, w')) /\
       (forall i, (i < k - 1)%nat ->
          exists st cs, w_server w (ncalls w + i) = Resp st cs /\ (400 <= st)%Z) /\
       ((k < 6)%nat -> res = Ok tt \/ exists e, res = Exc e /\ Tenacity.retry_if e = false)) /\
  (forall r out w,
     (forall i, (i < 6)%nat -> exists st cs, w_server w (ncalls w + i) = Resp st cs /\ (400 <= st)%Z) ->
     exists e w', fetch_csv r out w = (Exc e, w') /\ Tenacity.retry_if e = true /\
       ncalls w' = (ncalls w + 6)%nat /\ w_fs w' = w_fs w) /\
  (forall n, (1 <= n)%nat -> Tenacity.wait n = inject_Z (Z.min (2 ^ (Z.of_nat n - 1)) 60)) /\
  map Tenacity.wait [1; 2; 3; 4; 5]%nat = map inject_Z [1; 2; 4; 8; 16]%Z /\
  (forall root sleep_s y lat lon w st chunks header,
     looks_like_valid_csv (w_fs w) (out_path root y lat lon) = false ->
     (forall i, (i < 5)%nat -> exists cs, w_server w (ncalls w + i) = Resp 429 cs) ->
     w_server w (ncalls w + 5) = Resp st chunks -> st <> 429%Z -> (st < 400)%Z ->
     csv_first_row (body_text chunks) = Some header -> header_ok header = true ->
     exists w', process_item root sleep_s y (lat, lon) w = (Ok Fetched, w') /\
       ncalls w' = (ncalls w + 6)%nat /\
       w_fs w' (out_path root y lat lon) = Some (body_text chunks)) /\
  (forall root sleep_s y lat lon w,
     looks_like_valid_csv (w_fs w) (out_path root y lat lon) = false ->
     (forall i, (i < 6)%nat -> exists cs, w_server w (ncalls w + i) = Resp 429 cs) ->
     exists w', process_item root sleep_s y (lat, lon) w = (Ok (Failed rate_limited_msg), w') /\
       ncalls w' = (ncalls w + 6)%nat /\
       w_fs w' (err_path (out_path root y lat lon)) = Some rate_limited_msg).
Proof.
  split.
  { intros r out w res w' E. unfold fetch_csv, Tenacity.retrying in E.
    destruct (attempt_run r out 5 1 w res w' eq_refl (le_n 1) E)
      as (k & Hk & L & Hf & (wl & _ & _ & _ & El) & Hc).
    exists k. split; [lia|]. split; [exact L|]. split; [|split; [exact Hf|]].
    - intros e ->. split; [|exists wl; exact El].
      destruct (Nat.eq_dec k 6) as [|Hk6]; [left; assumption|right].
      destruct (Hc ltac:(lia)) as [[=]|(e' & [= <-] & R)]. exact R.
    - intros Hk6. apply Hc. lia. }
  split.
  { intros r out w Hs.
    destruct (attempt_all_fail r out 5 1 w eq_refl (fun i Hi => Hs i ltac:(lia)))
      as (e & w' & E & R & Hc & Hf & _).
    exists e, w'. unfold fetch_csv, Tenacity.retrying. rewrite E. auto. }
  split; [exact wait_doubling|]. split; [reflexivity|]. split.
  { intros root sleep_s y lat lon w st chunks header V Hs Hok H4 H5 Hh Hv.
    rewrite (process_item_fetch _ _ _ _ _ _ V).
    destruct (attempt_429_then_ok (y, lat, lon) (out_path root y lat lon) st chunks
                (part_neq_out _ _ _ _) H4 H5 5 5 1 w eq_refl (le_n 5) Hs Hok)
      as (w' & E & Hc & Ho).
    unfold fetch_csv, Tenacity.retrying. rewrite E.
    assert (V' : looks_like_valid_csv (w_fs w') (out_path root y lat lon) = true)
      by (unfold looks_like_valid_csv; rewrite Ho, Hh; exact Hv).
    rewrite V'. eexists; split; [reflexivity|]. split; [rewrite ncalls_sleep; lia | exact Ho]. }
  intros root sleep_s y lat lon w V Hs.
  rewrite (process_item_fetch _ _ _ _ _ _ V).
  destruct (attempt_all_429 (y, lat, lon) (out_path root y lat lon) 5 1 w eq_refl
              (fun i Hi => Hs i ltac:(lia))) as (w' & E & Hc & _).
  unfold fetch_csv, Tenacity.retrying. rewrite E.
  eexists; split; [reflexivity|]. split; [rewrite ncalls_sleep, ncalls_set_fs; lia|].
  simpl. apply upd_same.
Qed.

Lemma retry_bounded_backoff_witness :
  (exists w', @process_item Sample.simple_csv _ Sample.root (1#4) 2020 (Sample.lat8, Sample.lon102)
                (Sample.world_of Sample.empty_fs (Sample.server_429s 5)) = (Ok Fetched, w') /\
              ncalls w' = 6%nat /\ w_fs w' Sample.out = Some Sample.good_body) /\
  (exists w', @process_item Sample.simple_csv _ Sample.root (1#4) 2020 (Sample.lat8, Sample.lon102)
                (Sample.world_of Sample.empty_fs (Sample.server_429s 6)) = (Ok (Failed rate_limited_msg), w') /\
              ncalls w' = 6%nat /\ w_fs w' (err_path Sample.out) = Some rate_limited_msg).
Proof.
  split.
  - destruct (proj1 (proj2 (proj2 (proj2 (proj2 (@retry_bounded_backoff Sample.simple_csv)))))
                Sample.root (1#4) 2020%Z Sample.lat8 Sample.lon102 (Sample.world_of Sample.empty_fs (Sample.server_429s 5))
                200%Z [Sample.good_body] ["Year"; "Month"; "GHI"; "DNI"]%string)
      as (w' & E & Hc & Ho);
      [reflexivity
      | intros i Hi; exists []; unfold Sample.server_429s; simpl;
        rewrite (proj2 (Nat.ltb_lt _ _) Hi); reflexivity
      | reflexivity | discriminate | reflexivity | reflexivity | reflexivity |].
    exists w'. split; [exact E|]. split; [exact Hc|].
    unfold Sample.out. rewrite Ho. reflexivity.
  - destruct (proj2 (proj2 (proj2 (proj2 (proj2 (@retry_bounded_backoff Sample.simple_csv)))))
                Sample.root (1#4) 2020%Z Sample.lat8 Sample.lon102 (Sample.world_of Sample.empty_fs (Sample.server_429s 6)))
      as (w' & E & Hc & Ho);
      [reflexivity
      | intros i Hi; exists []; unfold Sample.server_429s; simpl;
        rewrite (proj2 (Nat.ltb_lt _ _) Hi); reflexivity |].
    exists w'. auto.
Defined.

(** ** Frames: which files a computation may change *)

Definition modifies {A} (S : path -> Prop) (m : M A) : Prop :=
  forall w r w', m w = (r, w') -> forall q, ~ S q -> w_fs w' q = w_fs w q.

Lemma apply_op_frame f o f' q :
  apply_op f o = Some f' -> ~ In q (ops_touch o) -> f' q = f q.
Proof.
  intros E Hq. destruct o as [p|p c|s d|p|p t]; simpl in E, Hq.
  1,2,4,5: injection E as <-; apply upd_other; intros ->; tauto.
  destruct (f s); [|discriminate]. injection E as <-.
  rewrite upd_other, upd_other; [reflexivity| |]; intros ->; tauto.
Qed.

Lemma modifies_run_op (S : path -> Prop) o :
  (forall p, In p (ops_touch o) -> S p) -> modifies S (run_op o).
Proof.
  intros HS w r w' E q Hq. unfold run_op in E.
  destruct (apply_op (w_fs w) o) as [f|] eqn:Eo; injection E as _ <-; [|reflexivity].
  simpl. apply (apply_op_frame _ _ _ _ Eo). intro Hin. exact (Hq (HS q Hin)).
Qed.

Lemma modifies_ret {A} S (a : A) : modifies S (ret a).
Proof. intros w r w' E q _. injection E as _ <-. reflexivity. Qed.

Lemma modifies_raise {A} S e : modifies S (@raise A e).
Proof. intros w r w' E q _. injection E as _ <-. reflexivity. Qed.

Lemma modifies_sleep S s : modifies S (sleep s).
Proof. intros w r w' E q _. injection E as _ <-. reflexivity. Qed.

Lemma modifies_requests_get S r : modifies S (requests_get r).
Proof. intros w x w' E q _. injection E as _ <-. reflexivity. Qed.

Lemma modifies_bind {A B} S (m : M A) (k : A -> M B) :
  modifies S m -> (forall a, modifies S (k a)) -> modifies S (bind m k).
Proof.
  intros Hm Hk w r w' E q Hq. unfold bind in E. destruct (m w) as [[a|e] w1] eqn:E1.
  - rewrite (Hk a _ _ _ E q Hq). exact (Hm _ _ _ E1 q Hq).
  - injection E as _ <-. exact (Hm _ _ _ E1 q Hq).
Qed.

Lemma modifies_run_ops S ops :
  (forall o p, In o ops -> In p (ops_touch o) -> S p) -> modifies S (run_ops ops).
Proof.
  induction ops as [|o ops IH]; intro HS; simpl; [apply modifies_ret|].
  apply modifies_bind.
  - apply modifies_run_op. intros p Hp. exact (HS o p (or_introl eq_refl) Hp).
  - intros _. apply IH. intros o' p Ho Hp. exact (HS o' p (or_intror Ho) Hp).
Qed.

Lemma modifies_attempt S (body : M unit) :
  modifies S body -> forall b n, modifies S (Tenacity.attempt b n body).
Proof.
  intros Hb b. induction b as [|b IH]; intros n w r w' E q Hq; cbn [Tenacity.attempt] in E;
    destruct (body w) as [[a|e] w1] eqn:E1;
    try (injection E as _ <-; exact (Hb _ _ _ E1 q Hq)).
  - destruct (Tenacity.retry_if e), (Tenacity.stop n);
      injection E as _ <-; exact (Hb _ _ _ E1 q Hq).
  - destruct (Tenacity.retry_if e); [destruct (Tenacity.stop n)|];
      try (injection E as _ <-; exact (Hb _ _ _ E1 q Hq)).
    assert (G : modifies S (sleep (Tenacity.wait n) ;;; Tenacity.attempt b (Datatypes.S n) body))
      by (apply modifies_bind; [apply modifies_sleep | intros _; apply IH]).
    rewrite (G _ _ _ E q Hq). exact (Hb _ _ _ E1 q Hq).
Qed.

(** [fetch_csv] changes at most [out] and its [.part] file. *)
Lemma modifies_fetch_csv r out :
  modifies (fun q => q = out \/ q = part_path out) (fetch_csv r out).
Proof.
  apply modifies_attempt. unfold fetch_csv_body.
  apply modifies_bind; [apply modifies_requests_get|].
  intros [st cs|m]; [|apply modifies_raise].
  destruct (st =? 429)%Z; [apply modifies_raise|].
  destruct (400 <=? st)%Z; [apply modifies_raise|].
  apply modifies_run_ops. intros o p Ho Hp. unfold fetch_ops in Ho.
  destruct Ho as [<-|Ho]; [simpl in Hp; destruct Hp as [<-|[]]; right; reflexivity|].
  apply in_app_or in Ho. destruct Ho as [Ho|[<-|[]]].
  - apply in_map_iff in Ho. destruct Ho as (c & <- & _).
    simpl in Hp. destruct Hp as [<-|[]]. right; reflexivity.
  - simpl in Hp. destruct Hp as [<-|[<-|[]]]; [right|left]; reflexivity.
Qed.

Section ItemCases.
Context `{CsvReader}.

(** The three ways one iteration of the loop can end. *)
Lemma process_item_cases root sleep_s y lat lon w r w' :
  let out := out_path root y lat lon in
  process_item root sleep_s y (lat, lon) w = (r, w') ->
  (r = Ok Skipped /\ w' = w) \/
  (r = Ok Fetched /\
     forall q, q <> out -> q <> part_path out -> w_fs w' q = w_fs w q) \/
  (exists m, r = Ok (Failed m) /\ w_fs w' (err_path out) = Some m /\
     forall q, q <> out -> q <> part_path out -> q <> err_path out -> w_fs w' q = w_fs w q).
Proof.
  intros out E.
  destruct (looks_like_valid_csv (w_fs w) out) eqn:V.
  { rewrite (process_item_skip _ _ _ _ _ _ V) in E. injection E as <- <-. left; auto. }
  rewrite (process_item_fetch _ _ _ _ _ _ V) in E. fold out in E.
  destruct (fetch_csv (y, lat, lon) out w) as [[u|e] w1] eqn:Ef.
  all: assert (Fr : forall q, q <> out -> q <> part_path out -> w_fs w1 q = w_fs w q)
         by (intros q H1 H2; apply (modifies_fetch_csv _ _ _ _ _ Ef); intros [|]; auto).
  - destruct (looks_like_valid_csv (w_fs w1) out); injection E as <- <-.
    + right; left. split; [reflexivity|]. exact Fr.
    + right; right. exists invalid_msg. split; [reflexivity|]. simpl. split; [apply upd_same|].
      intros q H1 H2 H3. rewrite upd_other, upd_other by assumption. apply Fr; assumption.
  - injection E as <- <-. right; right. exists (exn_msg e). split; [reflexivity|].
    simpl. split; [apply upd_same|].
    intros q H1 H2 H3. rewrite upd_other by assumption. apply Fr; assumption.
Qed.




(** ErrorRecord files present before an iteration are present after it. *)
Lemma process_item_keeps_err root sleep_s y pt w r w' q :
  process_item root sleep_s y pt w = (r, w') -> is_err_file q ->
  w_fs w q <> None -> w_fs w' q <> None.
Proof.
  destruct pt as [lat lon]. intros E Hq Hn.
  assert (N1 : q <> out_path root y lat lon) by (apply err_file_not_out, Hq).
  assert (N2 : q <> part_path (out_path root y lat lon)) by (apply err_file_not_part, Hq).
  destruct (process_item_cases _ _ _ _ _ _ _ _ E) as [[_ ->]|[[_ Fr]|(m & _ & Herr & Fr)]].
  - exact Hn.
  - rewrite Fr by assumption. exact Hn.
  - destruct (path_eq_dec q (err_path (out_path root y lat lon))) as [->|N3].
    + rewrite Herr. discriminate.
    + rewrite Fr by assumption. exact Hn.
Qed.

Lemma for_points_keeps_err root sleep_s y q : forall pts w r w',
  for_points root sleep_s y pts w = (r, w') -> is_err_file q ->
  w_fs w q <> None -> w_fs w' q <> None.
Proof.
  induction pts as [|pt pts IH]; intros w r w' E Hq Hn; simpl in E.
  - injection E as _ <-. exact Hn.
  - unfold bind in E. destruct (process_item root sleep_s y pt w) as [[o|e] w1] eqn:E1.
    + pose proof (process_item_keeps_err _ _ _ _ _ _ _ q E1 Hq Hn) as Hn1.
      destruct (for_points root sleep_s y pts w1) as [[os|e] w2] eqn:E2;
        injection E as _ <-; exact (IH _ _ _ E2 Hq Hn1).
    + injection E as _ <-. exact (process_item_keeps_err _ _ _ _ _ _ _ q E1 Hq Hn).
Qed.

Lemma for_years_keeps_err root sleep_s pts q : forall ys w r w',
  for_years root sleep_s ys pts w = (r, w') -> is_err_file q ->
  w_fs w q <> None -> w_fs w' q <> None.
Proof.
  intro ys. induction ys as [|y ys IH]; intros w r w' E Hq Hn; simpl in E.
  - injection E as _ <-. exact Hn.
  - unfold bind in E. destruct (for_points root sleep_s y pts w) as [[os|e] w1] eqn:E1.
    + pose proof (for_points_keeps_err root sleep_s y q pts w _ _ E1 Hq Hn) as Hn1.
      destruct (for_years root sleep_s ys pts w1) as [[os'|e] w2] eqn:E2;
        injection E as _ <-; exact (IH _ _ _ E2 Hq Hn1).
    + injection E as _ <-. exact (for_points_keeps_err root sleep_s y q pts w _ _ E1 Hq Hn).
Qed.

(** After a fetch whose file fails the check, the iteration ends in the
    [except] branch without a further request. *)
Lemma process_item_invalid root sleep_s y lat lon w w1 :
  let out := out_path root y lat lon in
  looks_like_valid_csv (w_fs w) out = false ->
  fetch_csv (y, lat, lon) out w = (Ok tt, w1) ->
  looks_like_valid_csv (w_fs w1) out = false ->
  exists w2, process_item root sleep_s y (lat, lon) w = (Ok (Failed invalid_msg), w2) /\
             ncalls w2 = ncalls w1 /\ w_fs w2 out = None /\
             w_fs w2 (err_path out) = Some invalid_msg.
Proof.
  intros out V E V1. rewrite (process_item_fetch _ _ _ _ _ _ V). fold out. rewrite E, V1.
  eexists; split; [reflexivity|]. split; [reflexivity|]. simpl. split.
  - rewrite upd_other by (apply not_eq_sym, err_neq_out). apply upd_same.
  - apply upd_same.
Qed.

End ItemCases.

(** ** When the ErrorRecord cannot be written *)

Section Refusing.
Context `{CsvReader} (ro : path -> bool).

(** Where the ErrorRecord of an item can be written, the iteration runs as
    with a file system that accepts every write. *)
Lemma process_item_writable root sleep_s y lat lon w :
  ro (err_path (out_path root y lat lon)) = false ->
  @process_item _ (refusing ro) root sleep_s y (lat, lon) w =
  @process_item _ os_write root sleep_s y (lat, lon) w.
Proof.
  intro Hro. unfold process_item, refusing, os_write, write_text. cbv beta iota zeta.
  rewrite Hro. reflexivity.
Qed.



Lemma process_item_refusing_skip root sleep_s y lat lon w :
  looks_like_valid_csv (w_fs w) (out_path root y lat lon) = true ->
  @process_item _ (refusing ro) root sleep_s y (lat, lon) w = (Ok Skipped, w).
Proof.
  intro V. unfold process_item, bind, get_fs. cbv beta iota.
  rewrite V, (valid_exists _ _ V). reflexivity.
Qed.

(** Where it cannot, the [OSError] of the [except] branch escapes the
    iteration. *)
Lemma process_item_refused root sleep_s y lat lon w :
  let out := out_path root y lat lon in
  ro (err_path out) = true ->
  looks_like_valid_csv (w_fs w) out = false ->
  @process_item _ (refusing ro) root sleep_s y (lat, lon) w =
  match fetch_csv (y, lat, lon) out w with
  | (Ok _, w1) =>
      if looks_like_valid_csv (w_fs w1) out
      then (Ok Fetched, log_ev w1 (Ev_sleep sleep_s))
      else (Exc (OSError "[Errno 13] Permission denied"), set_fs w1 (upd (w_fs w1) out None))
  | (Exc e, w1) => (Exc (OSError "[Errno 13] Permission denied"), w1)
  end.
Proof.
  intros out Hro V. unfold process_item, bind, get_fs, refusing, write_text. cbv beta iota zeta.
  fold out. rewrite V, andb_false_r, Hro.
  unfold catch. destruct (fetch_csv (y, lat, lon) out w) as [[u|e] w1]; [|reflexivity].
  destruct (looks_like_valid_csv (w_fs w1) out); reflexivity.
Qed.


End Refusing.

(** ** Error classification *)

(** C4 (counterexample): a network failure on the first request is not
    followed by a second request, although the next response would be a
    valid CSV. *)
Lemma network_failure_retried_cex :
  ~ (forall r out w m res w',
       w_server w (ncalls w) = Net_failure m ->
       fetch_csv r out w = (res, w') ->
       (S (S (ncalls w)) <= ncalls w')%nat).
Proof.
  intro Hc.
  pose proof (Hc (2020%Z, Sample.lat8, Sample.lon102) Sample.out
                 (Sample.world_of Sample.empty_fs Sample.server_timeout_then_ok)
                 "Read timed out."%string _ _ eq_refl (surjective_pairing _)) as H.
  vm_compute in H. lia.
Qed.

(** C4 (amended): a status of 429 or any other status >= 400 makes
    [fetch_csv] raise [ApiError], which the decorator retries: at every
    attempt [n] before the sixth, the loop goes on to attempt [n+1] after
    sleeping [wait n]; six such responses in a row make [fetch_csv] raise
    after six requests, and the item ends in the [except] branch with an
    ErrorRecord.  A network failure raised by [requests], at any attempt, is
    not an [ApiError]: [fetch_csv] re-raises it after that request, and an
    item whose first request fails that way ends with an ErrorRecord after
    that single request.  The item-level parts hold wherever the ErrorRecord
    can be written. *)
Theorem http_errors_retried_network_errors_not `{CsvReader} :
  (forall r out w st cs,
     w_server w (ncalls w) = Resp st cs -> (400 <= st)%Z ->
     let m := if (st =? 429)%Z then rate_limited_msg
              else ("HTTP " ++ Str.str_Z st ++ ": " ++ substring 0 200 (body_text cs))%string in
     fetch_csv_body r out w = (Exc (ApiError m), log_ev w (Ev_get r)) /\
     fetch_csv r out w =
       Tenacity.attempt 4 2 (fetch_csv_body r out)
         (log_ev (log_ev w (Ev_get r)) (Ev_sleep (Tenacity.wait 1)))) /\
  (forall r out w st cs b n,
     (n + S b = 6)%nat -> (1 <= n)%nat ->
     w_server w (ncalls w) = Resp st cs -> (400 <= st)%Z ->
     Tenacity.attempt (S b) n (fetch_csv_body r out) w =
     Tenacity.attempt b (S n) (fetch_csv_body r out)
       (log_ev (log_ev w (Ev_get r)) (Ev_sleep (Tenacity.wait n)))) /\
  (forall r out w m,
     w_server w (ncalls w) = Net_failure m ->
     fetch_csv r out w = (Exc (RequestError m), log_ev w (Ev_get r))) /\
  (forall r out w m b n,
     w_server w (ncalls w) = Net_failure m ->
     Tenacity.attempt b n (fetch_csv_body r out) w = (Exc (RequestError m), log_ev w (Ev_get r))) /\
  (forall ro root sleep_s y lat lon w m,
     ro (err_path (out_path root y lat lon)) = false ->
     looks_like_valid_csv (w_fs w) (out_path root y lat lon) = false ->
     w_server w (ncalls w) = Net_failure m ->
     exists w', @process_item _ (refusing ro) root sleep_s y (lat, lon) w = (Ok (Failed m), w') /\
       ncalls w' = S (ncalls w) /\
       w_fs w' (err_path (out_path root y lat lon)) = Some m) /\
  (forall ro root sleep_s y lat lon w,
     ro (err_path (out_path root y lat lon)) = false ->
     looks_like_valid_csv (w_fs w) (out_path root y lat lon) = false ->
     (forall i, (i < 6)%nat -> exists st cs, w_server w (ncalls w + i) = Resp st cs /\ (400 <= st)%Z) ->
     exists m w', @process_item _ (refusing ro) root sleep_s y (lat, lon) w = (Ok (Failed m), w') /\
       ncalls w' = (ncalls w + 6)%nat /\
       w_fs w' (err_path (out_path root y lat lon)) = Some m).
Proof.
  split.
  { intros r out w st cs Hs Hst m.
    assert (Eb : fetch_csv_body r out w = (Exc (ApiError m), log_ev w (Ev_get r))).
    { unfold fetch_csv_body, bind, requests_get. rewrite Hs. unfold m.
      destruct (st =? 429)%Z; [reflexivity|].
      replace (400 <=? st)%Z with true by (symmetry; apply Z.leb_le; exact Hst). reflexivity. }
    split; [exact Eb|].
    unfold fetch_csv, Tenacity.retrying.
    exact (attempt_retry_step (fetch_csv_body r out) 4 1 w _ _ Eb eq_refl eq_refl). }
  split.
  { intros r out w st cs b n Hb Hn Hs Hst.
    destruct (fetch_body_fail r out w st cs Hs Hst) as (e & Eb & R).
    exact (attempt_retry_step _ _ _ _ _ _ Eb R (stop_false n ltac:(lia))). }
  split.
  { intros r out w m Hs. unfold fetch_csv, Tenacity.retrying. exact (attempt_net_failure r out 5 1 w m Hs). }
  split; [intros r out w m b n; apply attempt_net_failure|].
  split.
  { intros ro root sleep_s y lat lon w m Hro V Hs.
    rewrite (process_item_writable ro _ _ _ _ _ _ Hro), (process_item_fetch _ _ _ _ _ _ V).
    unfold fetch_csv, Tenacity.retrying. rewrite (attempt_net_failure _ _ 5 1 w m Hs).
    eexists; split; [reflexivity|]. split.
    - rewrite ncalls_sleep, ncalls_set_fs, ncalls_get. reflexivity.
    - simpl. apply upd_same. }
  intros ro root sleep_s y lat lon w Hro V Hs.
  rewrite (process_item_writable ro _ _ _ _ _ _ Hro), (process_item_fetch _ _ _ _ _ _ V).
  destruct (attempt_all_fail (y, lat, lon) (out_path root y lat lon) 5 1 w eq_refl
              (fun i Hi => Hs i ltac:(lia))) as (e & w' & E & _ & Hc & _).
  unfold fetch_csv, Tenacity.retrying. rewrite E.
  exists (exn_msg e). eexists; split; [reflexivity|]. split.
  - rewrite ncalls_sleep, ncalls_set_fs. exact Hc.
  - simpl. apply upd_same.
Qed.

Lemma http_errors_retried_network_errors_not_witness :
  fetch_csv (2020%Z, Sample.lat8, Sample.lon102) Sample.out
     (Sample.world_of Sample.empty_fs Sample.server_timeout_then_ok) =
  (Exc (RequestError "Read timed out."),
   log_ev (Sample.world_of Sample.empty_fs Sample.server_timeout_then_ok) (Ev_get (2020%Z, Sample.lat8, Sample.lon102))) /\
  fetch_csv (2020%Z, Sample.lat8, Sample.lon102) Sample.out (Sample.world_of Sample.empty_fs (Sample.server_429s 1)) =
  Tenacity.attempt 4 2 (fetch_csv_body (2020%Z, Sample.lat8, Sample.lon102) Sample.out)
    (log_ev (log_ev (Sample.world_of Sample.empty_fs (Sample.server_429s 1)) (Ev_get (2020%Z, Sample.lat8, Sample.lon102)))
            (Ev_sleep (Tenacity.wait 1))) /\
  (exists w', @process_item Sample.simple_csv (refusing (fun _ => false)) Sample.root (1#4) 2020%Z
                (Sample.lat8, Sample.lon102)
                (Sample.world_of Sample.empty_fs Sample.server_timeout_then_ok) =
              (Ok (Failed "Read timed out."), w') /\ ncalls w' = 1%nat /\
              w_fs w' (err_path Sample.out) = Some "Read timed out."%string) /\
  (exists m w', @process_item Sample.simple_csv (refusing (fun _ => false)) Sample.root (1#4) 2020%Z
                  (Sample.lat8, Sample.lon102)
                  (Sample.world_of Sample.empty_fs (Sample.server_429s 6)) = (Ok (Failed m), w') /\
                ncalls w' = 6%nat /\ w_fs w' (err_path Sample.out) = Some m).
Proof.
  split; [|split; [|split]].
  - exact (proj1 (proj2 (proj2 (@http_errors_retried_network_errors_not Sample.simple_csv)))
             (2020%Z, Sample.lat8, Sample.lon102) Sample.out
             (Sample.world_of Sample.empty_fs Sample.server_timeout_then_ok) "Read timed out."%string eq_refl).
  - exact (proj2 (proj1 (@http_errors_retried_network_errors_not Sample.simple_csv)
                   (2020%Z, Sample.lat8, Sample.lon102) Sample.out
                   (Sample.world_of Sample.empty_fs (Sample.server_429s 1)) 429%Z []
                   eq_refl ltac:(lia))).
  - exact (proj1 (proj2 (proj2 (proj2 (proj2 (@http_errors_retried_network_errors_not Sample.simple_csv)))))
             (fun _ => false) Sample.root (1#4) 2020%Z Sample.lat8 Sample.lon102
             (Sample.world_of Sample.empty_fs Sample.server_timeout_then_ok) "Read timed out."%string
             eq_refl eq_refl eq_refl).
  - refine (proj2 (proj2 (proj2 (proj2 (proj2 (@http_errors_retried_network_errors_not Sample.simple_csv)))))
             (fun _ => false) Sample.root (1#4) 2020%Z Sample.lat8 Sample.lon102
             (Sample.world_of Sample.empty_fs (Sample.server_429s 6)) eq_refl eq_refl _).
    intros i Hi. exists 429%Z, []. split; [|lia].
    unfold Sample.server_429s. simpl. rewrite (proj2 (Nat.ltb_lt _ _) Hi). reflexivity.
Defined.

(** ** Downloads that fail the validity check *)

(** C5 (counterexample): an HTML page served with status 200 ends the item in
    the [except] branch after a single request, although the retry budget is
    not spent and the next response would be a valid CSV. *)
Lemma invalid_download_retried_cex :
  ~ (forall (csv : CsvReader) root sleep_s y lat lon w w',
       @process_item csv _ root sleep_s y (lat, lon) w = (Ok (Failed invalid_msg), w') ->
       ncalls w' = (ncalls w + 6)%nat).
Proof.
  intro Hc.
  pose proof (Hc Sample.simple_csv Sample.root (1#4) 2020%Z Sample.lat8 Sample.lon102
                 (Sample.world_of Sample.empty_fs Sample.server_bad_then_ok) _ eq_refl) as H.
  vm_compute in H. discriminate H.
Qed.

(** C5 (amended): whenever [fetch_csv] returns normally (after any number
    of retried HTTP errors) and the file fails the validity check, the file
    is deleted and the [ApiError] raised by [main] outside the decorator is
    not retried: the item ends in the [except] branch with an ErrorRecord
    and no further request; so [j < 6] responses with a status [>= 400]
    followed by a 2xx response with an invalid body end the item after
    [j + 1] requests.  An item is [Fetched] only with a valid file at its
    path, and an item that failed this way is fetched again by the next run.
    The parts that write the ErrorRecord hold wherever it can be written. *)
Theorem invalid_download_fails_without_retry `{CsvReader} :
  (forall ro root sleep_s y lat lon w w1,
     let out := out_path root y lat lon in
     ro (err_path out) = false ->
     looks_like_valid_csv (w_fs w) out = false ->
     fetch_csv (y, lat, lon) out w = (Ok tt, w1) ->
     looks_like_valid_csv (w_fs w1) out = false ->
     exists w2, @process_item _ (refusing ro) root sleep_s y (lat, lon) w = (Ok (Failed invalid_msg), w2) /\
       ncalls w2 = ncalls w1 /\ w_fs w2 out = None /\ w_fs w2 (err_path out) = Some invalid_msg) /\
  (forall ro root sleep_s y lat lon w j st chunks,
     let out := out_path root y lat lon in
     ro (err_path out) = false ->
     looks_like_valid_csv (w_fs w) out = false ->
     (j < 6)%nat ->
     (forall i, (i < j)%nat -> exists st' cs, w_server w (ncalls w + i) = Resp st' cs /\ (400 <= st')%Z) ->
     w_server w (ncalls w + j) = Resp st chunks -> st <> 429%Z -> (st < 400)%Z ->
     match csv_first_row (body_text chunks) with
     | Some header => header_ok header = false
     | None => True
     end ->
     exists w', @process_item _ (refusing ro) root sleep_s y (lat, lon) w = (Ok (Failed invalid_msg), w') /\
       ncalls w' = (ncalls w + S j)%nat /\ w_fs w' out = None /\
       w_fs w' (err_path out) = Some invalid_msg /\
       (forall sleep_s', (S (ncalls w') <= ncalls (snd (@process_item _ (refusing ro) root sleep_s' y (lat, lon) w')))%nat)) /\
  (forall ro root sleep_s y lat lon w w',
     @process_item _ (refusing ro) root sleep_s y (lat, lon) w = (Ok Fetched, w') ->
     looks_like_valid_csv (w_fs w') (out_path root y lat lon) = true).
Proof.
  split.
  { intros ro root sleep_s y lat lon w w1 out Hro V Ef V1.
    rewrite (process_item_writable ro _ _ _ _ _ _ Hro).
    exact (process_item_invalid root sleep_s y lat lon w w1 V Ef V1). }
  split.
  { intros ro root sleep_s y lat lon w j st chunks out Hro V Hj Hs Hok H4 H5 Hh.
    destruct (attempt_fail_then_ok (y, lat, lon) out st chunks (part_neq_out _ _ _ _) H4 H5
                j 5 1 w eq_refl ltac:(lia) Hs Hok) as (w1 & E & Hc & Ho).
    assert (V1 : looks_like_valid_csv (w_fs w1) out = false).
    { unfold looks_like_valid_csv. rewrite Ho.
      destruct (csv_first_row (body_text chunks)); [exact Hh | reflexivity]. }
    rewrite (process_item_writable ro _ _ _ _ _ _ Hro).
    destruct (process_item_invalid root sleep_s y lat lon w w1 V E V1) as (w2 & E2 & Hc2 & Hout & Herr).
    exists w2. split; [exact E2|]. split; [lia|]. split; [exact Hout|]. split; [exact Herr|].
    assert (V2 : looks_like_valid_csv (w_fs w2) out = false)
      by (unfold looks_like_valid_csv, out; rewrite Hout; reflexivity).
    intro sleep_s'. rewrite (process_item_writable ro _ _ _ _ _ _ Hro).
    exact (process_item_calls root sleep_s' y lat lon w2 V2). }
  intros ro root sleep_s y lat lon w w' E.
  destruct (looks_like_valid_csv (w_fs w) (out_path root y lat lon)) eqn:V.
  { rewrite (process_item_refusing_skip ro _ _ _ _ _ _ V) in E. discriminate E. }
  destruct (ro (err_path (out_path root y lat lon))) eqn:Hro.
  - rewrite (process_item_refused ro _ _ _ _ _ _ Hro V) in E.
    destruct (fetch_csv (y, lat, lon) (out_path root y lat lon) w) as [[u|e] w1]; [|discriminate E].
    destruct (looks_like_valid_csv (w_fs w1) (out_path root y lat lon)) eqn:V1; [|discriminate E].
    injection E as <-. exact V1.
  - rewrite (process_item_writable ro _ _ _ _ _ _ Hro), (process_item_fetch _ _ _ _ _ _ V) in E.
    destruct (fetch_csv (y, lat, lon) (out_path root y lat lon) w) as [[u|e] w1]; [|discriminate E].
    destruct (looks_like_valid_csv (w_fs w1) (out_path root y lat lon)) eqn:V1; [|discriminate E].
    injection E as <-. exact V1.
Qed.

Lemma invalid_download_fails_without_retry_witness :
  (exists w', @process_item Sample.simple_csv (refusing (fun _ => false)) Sample.root (1#4) 2020%Z
                (Sample.lat8, Sample.lon102) (Sample.world_of Sample.empty_fs Sample.server_bad_then_ok) =
              (Ok (Failed invalid_msg), w') /\
    ncalls w' = 1%nat /\ w_fs w' Sample.out = None /\
    w_fs w' (err_path Sample.out) = Some invalid_msg /\
    (forall sleep_s', (S (ncalls w') <= ncalls (snd (@process_item Sample.simple_csv (refusing (fun _ => false))
                        Sample.root sleep_s' 2020%Z (Sample.lat8, Sample.lon102) w')))%nat)) /\
  (exists w', @process_item Sample.simple_csv (refusing (fun _ => false)) Sample.root (1#4) 2020%Z
                (Sample.lat8, Sample.lon102) (Sample.world_of Sample.empty_fs Sample.server_503_then_bad) =
              (Ok (Failed invalid_msg), w') /\
    ncalls w' = 2%nat /\ w_fs w' Sample.out = None /\
    w_fs w' (err_path Sample.out) = Some invalid_msg /\
    (forall sleep_s', (S (ncalls w') <= ncalls (snd (@process_item Sample.simple_csv (refusing (fun _ => false))
                        Sample.root sleep_s' 2020%Z (Sample.lat8, Sample.lon102) w')))%nat)).
Proof.
  split.
  - refine (proj1 (proj2 (@invalid_download_fails_without_retry Sample.simple_csv))
              (fun _ => false) Sample.root (1#4) 2020%Z Sample.lat8 Sample.lon102
              (Sample.world_of Sample.empty_fs Sample.server_bad_then_ok) 0%nat 200%Z [Sample.bad_body]
              eq_refl eq_refl ltac:(lia) _ eq_refl ltac:(discriminate) ltac:(reflexivity) eq_refl).
    intros i Hi. lia.
  - refine (proj1 (proj2 (@invalid_download_fails_without_retry Sample.simple_csv))
              (fun _ => false) Sample.root (1#4) 2020%Z Sample.lat8 Sample.lon102
              (Sample.world_of Sample.empty_fs Sample.server_503_then_bad) 1%nat 200%Z [Sample.bad_body]
              eq_refl eq_refl ltac:(lia) _ eq_refl ltac:(discriminate) ltac:(reflexivity) eq_refl).
    intros i Hi. exists 503%Z, []. split; [|lia].
    destruct i; [reflexivity | lia].
Defined.

Lemma existsb_none {A} (p : A -> bool) (l : list A) :
  Forall (fun x => p x = false) l -> existsb p l = false.
Proof. induction 1; simpl; [reflexivity|]. rewrite H, IHForall. reflexivity. Qed.

(** C6: when the downloaded file has no header row, or no column of its
    header contains "GHI" once upper-cased, the iteration deletes [out],
    writes the ErrorRecord and ends in the [except] branch. *)
Theorem unmarked_download_deleted `{CsvReader} root sleep_s y lat lon w w1 text :
  let out := out_path root y lat lon in
  looks_like_valid_csv (w_fs w) out = false ->
  fetch_csv (y, lat, lon) out w = (Ok tt, w1) ->
  w_fs w1 out = Some text ->
  match csv_first_row text with
  | Some header => Forall (fun col => Str.containsb "GHI" (str_upper col) = false) header
  | None => True
  end ->
  exists w2, process_item root sleep_s y (lat, lon) w = (Ok (Failed invalid_msg), w2) /\
    w_fs w2 out = None /\ w_fs w2 (err_path out) = Some invalid_msg.
Proof.
  intros out V Ef Ho Hh.
  assert (V1 : looks_like_valid_csv (w_fs w1) out = false).
  { unfold looks_like_valid_csv. rewrite Ho.
    destruct (csv_first_row text) as [header|]; [|reflexivity].
    unfold header_ok. rewrite (existsb_none _ _ Hh). apply andb_false_r. }
  destruct (process_item_invalid root sleep_s y lat lon w w1 V Ef V1) as (w2 & E & _ & Hout & Herr).
  exists w2. auto.
Qed.

Lemma unmarked_download_deleted_witness :
  exists w2, @process_item Sample.simple_csv _ Sample.root (1#4) 2020%Z (Sample.lat8, Sample.lon102)
               (Sample.world_of Sample.empty_fs Sample.server_bad_then_ok) =
             (Ok (Failed invalid_msg), w2) /\
    w_fs w2 Sample.out = None /\ w_fs w2 (err_path Sample.out) = Some invalid_msg.
Proof.
  refine (@unmarked_download_deleted Sample.simple_csv Sample.root (1#4) 2020%Z Sample.lat8 Sample.lon102
            (Sample.world_of Sample.empty_fs Sample.server_bad_then_ok)
            (snd (fetch_csv (2020%Z, Sample.lat8, Sample.lon102) Sample.out
                    (Sample.world_of Sample.empty_fs Sample.server_bad_then_ok)))
            Sample.bad_body eq_refl eq_refl eq_refl _).
  vm_compute. repeat constructor.
Defined.

(** ** Failure isolation *)




(** ** ErrorRecords are never removed *)

(** C10: an iteration that skips or publishes leaves every ErrorRecord file
    (a name ending in [.err.txt]) exactly as it was, so a stale record stays
    next to the valid artifact; over a whole batch an ErrorRecord present at
    the start is still present at the end. *)
Theorem error_records_persist `{CsvReader} :
  (forall root sleep_s y lat lon w o w' q,
     process_item root sleep_s y (lat, lon) w = (Ok o, w') ->
     (o = Skipped \/ o = Fetched) -> is_err_file q ->
     w_fs w' q = w_fs w q) /\
  (forall root sleep_s ys pts w r w' q,
     for_years root sleep_s ys pts w = (r, w') -> is_err_file q ->
     w_fs w q <> None -> w_fs w' q <> None).
Proof.
  split; [|intros root sleep_s ys pts w r w' q; apply for_years_keeps_err].
  intros root sleep_s y lat lon w o w' q E Ho Hq.
  assert (N1 : q <> out_path root y lat lon) by (apply err_file_not_out, Hq).
  assert (N2 : q <> part_path (out_path root y lat lon)) by (apply err_file_not_part, Hq).
  destruct (process_item_cases _ _ _ _ _ _ _ _ E) as [[_ ->]|[[_ Fr]|(m & Hr & _)]].
  - reflexivity.
  - apply Fr; assumption.
  - injection Hr as Hr. destruct Ho; subst o; discriminate.
Qed.

Lemma error_records_persist_witness :
  let w := Sample.world_of Sample.fs_stale_err (Sample.server_429s 0) in
  let E := @process_item Sample.simple_csv _ Sample.root (1#4) 2020%Z (Sample.lat8, Sample.lon102) w in
  fst E = Ok Fetched /\
  w_fs (snd E) Sample.out = Some Sample.good_body /\
  w_fs (snd E) (err_path Sample.out) = Some rate_limited_msg.
Proof.
  intros w E. split; [reflexivity|]. split; [reflexivity|].
  rewrite (proj1 (@error_records_persist Sample.simple_csv)
             Sample.root (1#4) 2020%Z Sample.lat8 Sample.lon102 w Fetched (snd E) (err_path Sample.out)
             (surjective_pairing _) (or_intror eq_refl)
             (ex_intro _ "nsrdb_2020_8.0000_102.0000"%string eq_refl)).
  reflexivity.
Defined.

(* ------------------------------------------------------------------ *)
(** ** Strings of the artifact name and the grid *)

Lemma forall_chars_app f s t :
  Str.forall_chars f (s ++ t) = Str.forall_chars f s && Str.forall_chars f t.
Proof. induction s as [|c s IH]; simpl; [reflexivity|]. rewrite IH, andb_assoc. reflexivity. Qed.

Lemma forall_chars_impl (f g : ascii -> bool) s :
  (forall c, f c = true -> g c = true) -> Str.forall_chars f s = true -> Str.forall_chars g s = true.
Proof.
  intros Hfg. induction s as [|c s IH]; simpl; [reflexivity|].
  intros H. apply andb_prop in H as [H1 H2]. rewrite (Hfg c H1), (IH H2). reflexivity.
Qed.


Lemma str_length_app s t : String.length (s ++ t) = (String.length s + String.length t)%nat.
Proof. induction s; simpl; auto. Qed.










Lemma digits4 r :
  r = (1000 * (r / 1000) + 100 * ((r / 100) mod 10) + 10 * ((r / 10) mod 10) + r mod 10)%N.
Proof.
  assert (E1 := N.div_mod' r 10).
  assert (E2 := N.div_mod' (r / 10) 10).
  assert (E3 := N.div_mod' (r / 100) 10).
  rewrite N.Div0.div_div in E2, E3. change (10 * 10)%N with 100%N in E2. change (100 * 10)%N with 1000%N in E3.
  lia.
Qed.


















(** ** Artifact paths *)





(* ================================================================== *)
(** * Further properties of the code

    Properties read off the source beyond the claims: the requests a run
    sends, what a run leaves on disk, when the grid enumeration ends, and the
    validity check on the [csv] reader of [PyCsv]. *)

Local Opaque PyCsv.field_limit.

(** ** Lemmas on the [csv] reader *)
Lemma lines_LF r : PyCsv.lines (String PyCsv.LF r) = String PyCsv.LF EmptyString :: PyCsv.lines r.
Proof. reflexivity. Qed.

Lemma lines_CRLF r :
  PyCsv.lines (String PyCsv.CR (String PyCsv.LF r)) =
  String PyCsv.CR (String PyCsv.LF EmptyString) :: PyCsv.lines r.
Proof. reflexivity. Qed.

Lemma lines_CR r :
  (match r with String d _ => Ascii.eqb d PyCsv.LF = false | EmptyString => True end) ->
  PyCsv.lines (String PyCsv.CR r) = String PyCsv.CR EmptyString :: PyCsv.lines r.
Proof. intros H. destruct r as [|d r]; [reflexivity|]. simpl. rewrite H. reflexivity. Qed.

Lemma lines_app s t :
  Str.forall_chars (fun c => negb (PyCsv.is_nl c)) s = true ->
  PyCsv.lines (s ++ t) =
  match PyCsv.lines t with
  | [] => match s with EmptyString => [] | _ => [s] end
  | l :: ls => (s ++ l)%string :: ls
  end.
Proof.
  induction s as [|c s IH]; simpl; intros H.
  - destruct (PyCsv.lines t); reflexivity.
  - apply andb_true_iff in H as [Hc Hs]. unfold PyCsv.is_nl in Hc.
    destruct (Ascii.eqb c PyCsv.LF), (Ascii.eqb c PyCsv.CR); try discriminate.
    rewrite (IH Hs). destruct (PyCsv.lines t) as [|l ls]; simpl; [|reflexivity].
    destruct s; reflexivity.
Qed.

Lemma field_limit_ok n : (n < PyCsv.field_limit)%nat -> Nat.leb PyCsv.field_limit n = false.
Proof. intros H. apply Nat.leb_gt. exact H. Qed.

Lemma in_field_run h fld flds tail :
  Str.forall_chars PyCsv.plain_char h = true ->
  (String.length fld + String.length h <= PyCsv.field_limit)%nat ->
  PyCsv.process_line (PyCsv.mkReader PyCsv.IN_FIELD fld (String.length fld) flds) (h ++ tail) =
  PyCsv.process_line (PyCsv.mkReader PyCsv.IN_FIELD (fld ++ h) (String.length (fld ++ h)) flds) tail.
Proof.
  revert fld. induction h as [|c h IH]; intros fld Hp Hl; simpl.
  - rewrite str_app_nil_r. reflexivity.
  - apply andb_true_iff in Hp as [Hc Hp]. unfold PyCsv.plain_char in Hc.
    apply andb_true_iff in Hc as [Hc Hcomma]. apply andb_true_iff in Hc as [Hnl _].
    apply negb_true_iff in Hnl, Hcomma.
    unfold PyCsv.parse_process_char; simpl. rewrite Hnl, Hcomma.
    unfold PyCsv.add_char; simpl. rewrite field_limit_ok by (simpl in Hl; lia).
    replace (S (String.length fld)) with (String.length (fld ++ String c EmptyString))
      by (rewrite str_length_app; simpl; lia).
    rewrite IH; [|exact Hp|rewrite str_length_app; simpl in *; lia].
    rewrite <- str_app_assoc. reflexivity.
Qed.

Lemma field_run h flds tail :
  Str.forall_chars PyCsv.plain_char h = true -> (String.length h <= PyCsv.field_limit)%nat ->
  exists r,
    PyCsv.process_line (PyCsv.mkReader PyCsv.START_FIELD EmptyString 0 flds) (h ++ tail) =
    PyCsv.process_line r tail /\
    (PyCsv.state r = PyCsv.START_FIELD \/ PyCsv.state r = PyCsv.IN_FIELD) /\
    PyCsv.field r = h /\ PyCsv.fields r = flds.
Proof.
  intros Hp Hl. destruct h as [|c h].
  - eexists. split; [reflexivity|]. auto.
  - simpl in Hp. apply andb_true_iff in Hp as [Hc Hp]. unfold PyCsv.plain_char in Hc.
    apply andb_true_iff in Hc as [Hc Hcomma]. apply andb_true_iff in Hc as [Hnl Hdq].
    apply negb_true_iff in Hnl, Hdq, Hcomma.
    simpl. unfold PyCsv.parse_process_char; simpl. rewrite Hnl, Hdq, Hcomma.
    unfold PyCsv.add_char; simpl. rewrite field_limit_ok by (simpl in Hl; lia).
    change 1%nat with (String.length (String c EmptyString)).
    rewrite in_field_run by (simpl in *; lia || exact Hp).
    eexists. split; [reflexivity|]. simpl. auto.
Qed.

Lemma in_quoted_run h fld flds tail :
  (String.length fld + String.length h <= PyCsv.field_limit)%nat ->
  PyCsv.process_line (PyCsv.mkReader PyCsv.IN_QUOTED_FIELD fld (String.length fld) flds)
    (PyCsv.double_quotes h ++ tail) =
  PyCsv.process_line (PyCsv.mkReader PyCsv.IN_QUOTED_FIELD (fld ++ h) (String.length (fld ++ h)) flds) tail.
Proof.
  revert fld. induction h as [|c h IH]; intros fld Hl.
  - simpl. rewrite str_app_nil_r. reflexivity.
  - assert (Hlen : String.length (fld ++ String c EmptyString) = S (String.length fld))
      by (rewrite str_length_app; simpl; lia).
    assert (Hl' : (String.length (fld ++ String c EmptyString) + String.length h <= PyCsv.field_limit)%nat)
      by (rewrite Hlen; simpl in Hl; lia).
    cbn [PyCsv.double_quotes]. destruct (Ascii.eqb c PyCsv.DQ) eqn:Ec.
    + apply Ascii.eqb_eq in Ec. subst c.
      cbn [String.append PyCsv.process_line]. unfold PyCsv.parse_process_char.
      cbn [PyCsv.state PyCsv.set_state]. rewrite Ascii.eqb_refl.
      cbn [PyCsv.process_line PyCsv.state PyCsv.set_state PyCsv.field PyCsv.field_len PyCsv.fields].
      try rewrite Ascii.eqb_refl.
      unfold PyCsv.add_char. cbn [PyCsv.field_len PyCsv.field PyCsv.fields PyCsv.set_state].
      rewrite field_limit_ok by (simpl in Hl; lia).
      rewrite <- Hlen, IH by exact Hl'. rewrite <- str_app_assoc. reflexivity.
    + cbn [String.append PyCsv.process_line]. unfold PyCsv.parse_process_char.
      cbn [PyCsv.state]. rewrite Ec.
      unfold PyCsv.add_char. cbn [PyCsv.field_len PyCsv.field PyCsv.fields PyCsv.set_state].
      rewrite field_limit_ok by (simpl in Hl; lia).
      rewrite <- Hlen, IH by exact Hl'. rewrite <- str_app_assoc. reflexivity.
Qed.

(** States in which a delimiter or a line end closes the current field. *)
Definition ends_field (s : PyCsv.ParserState) : Prop :=
  s = PyCsv.START_FIELD \/ s = PyCsv.IN_FIELD \/ s = PyCsv.QUOTE_IN_QUOTED_FIELD.

Lemma quoted_run h flds tail :
  (String.length h <= PyCsv.field_limit)%nat ->
  exists r,
    PyCsv.process_line (PyCsv.mkReader PyCsv.START_FIELD EmptyString 0 flds) (PyCsv.quote_all h ++ tail) =
    PyCsv.process_line r tail /\ ends_field (PyCsv.state r) /\
    PyCsv.field r = h /\ PyCsv.fields r = flds.
Proof.
  intros Hl. unfold PyCsv.quote_all. cbn [String.append].
  rewrite <- str_app_assoc. cbn [PyCsv.process_line].
  change (PyCsv.parse_process_char (PyCsv.mkReader PyCsv.START_FIELD EmptyString 0 flds) (PyCsv.Ch PyCsv.DQ))
    with (Some (PyCsv.mkReader PyCsv.IN_QUOTED_FIELD EmptyString (String.length EmptyString) flds)).
  cbv beta iota. rewrite in_quoted_run by (simpl; lia).
  cbn [String.append PyCsv.process_line].
  change (PyCsv.parse_process_char (PyCsv.mkReader PyCsv.IN_QUOTED_FIELD h (String.length h) flds)
            (PyCsv.Ch PyCsv.DQ))
    with (Some (PyCsv.mkReader PyCsv.QUOTE_IN_QUOTED_FIELD h (String.length h) flds)).
  cbv beta iota. eexists. split; [reflexivity|]. unfold ends_field. simpl. auto.
Qed.

Definition line_end (t : string) : Prop :=
  t = EmptyString \/ t = String PyCsv.LF EmptyString \/
  t = String PyCsv.CR (String PyCsv.LF EmptyString) \/ t = String PyCsv.CR EmptyString.

Lemma field_end r t :
  ends_field (PyCsv.state r) -> line_end t ->
  PyCsv.process_line r t =
  Some (PyCsv.mkReader PyCsv.START_RECORD EmptyString 0 (PyCsv.fields r ++ [PyCsv.field r])).
Proof.
  intros Hs Ht. destruct r as [st fld n flds]; simpl in Hs.
  destruct Hs as [-> | [-> | ->]]; destruct Ht as [-> | [-> | [-> | ->]]]; reflexivity.
Qed.

Lemma field_comma r :
  ends_field (PyCsv.state r) ->
  PyCsv.parse_process_char r (PyCsv.Ch ","%char) =
  Some (PyCsv.mkReader PyCsv.START_FIELD EmptyString 0 (PyCsv.fields r ++ [PyCsv.field r])).
Proof. intros Hs. destruct r as [st fld n flds]; simpl in Hs. destruct Hs as [-> | [-> | ->]]; reflexivity. Qed.

Section Rows.
(** How one field is written on a line, and what the fields written allow. *)
Variable enc : string -> string.
Variable ok : string -> Prop.
Hypothesis enc_run : forall h flds tail, ok h ->
  exists r,
    PyCsv.process_line (PyCsv.mkReader PyCsv.START_FIELD EmptyString 0 flds) (enc h ++ tail) =
    PyCsv.process_line r tail /\ ends_field (PyCsv.state r) /\
    PyCsv.field r = h /\ PyCsv.fields r = flds.

Lemma row_enc hs flds t :
  hs <> [] -> Forall ok hs -> line_end t ->
  PyCsv.process_line (PyCsv.mkReader PyCsv.START_FIELD EmptyString 0 flds)
    (String.concat "," (map enc hs) ++ t) =
  Some (PyCsv.mkReader PyCsv.START_RECORD EmptyString 0 (flds ++ hs)).
Proof.
  revert flds. induction hs as [|h hs IH]; intros flds Hne Hf Ht; [congruence|].
  inversion Hf as [|? ? Hh Hf']; subst.
  destruct hs as [|h2 hs].
  - cbn [map String.concat]. destruct (enc_run h flds t Hh) as (r & -> & Hs & Hfld & Hflds).
    rewrite field_end by assumption. rewrite Hfld, Hflds. reflexivity.
  - change (String.concat "," (map enc (h :: h2 :: hs)))
      with (enc h ++ String "," (String.concat "," (map enc (h2 :: hs))))%string.
    rewrite <- str_app_assoc.
    destruct (enc_run h flds (String "," (String.concat "," (map enc (h2 :: hs))) ++ t) Hh)
      as (r & -> & Hs & Hfld & Hflds).
    cbn [String.append PyCsv.process_line]. rewrite field_comma by exact Hs.
    rewrite Hfld, Hflds, IH by (congruence || assumption). rewrite <- app_assoc. reflexivity.
Qed.

Lemma first_line_enc hs t ls :
  String.concat "," (map enc hs) <> EmptyString ->
  Str.forall_chars (fun c => negb (PyCsv.is_nl c)) (String.concat "," (map enc hs)) = true ->
  Forall ok hs -> line_end t ->
  PyCsv.next_row PyCsv.reset ((String.concat "," (map enc hs) ++ t)%string :: ls) = Some (Some hs).
Proof.
  intros Hne Hnl Hf Ht.
  assert (Hhs : hs <> []) by (intros ->; apply Hne; reflexivity).
  assert (E := row_enc hs [] t Hhs Hf Ht).
  assert (R : PyCsv.process_line PyCsv.reset (String.concat "," (map enc hs) ++ t) =
              Some (PyCsv.mkReader PyCsv.START_RECORD EmptyString 0 hs)).
  { change hs with ([] ++ hs) at 2. rewrite <- E. destruct (String.concat "," (map enc hs)) as [|c x]; [congruence|].
    simpl in Hnl. apply andb_true_iff in Hnl as [Hc _]. apply negb_true_iff in Hc.
    simpl. unfold PyCsv.parse_process_char. simpl. rewrite Hc. reflexivity. }
  cbn [PyCsv.next_row]. rewrite R. reflexivity.
Qed.

Lemma first_row_enc hs rest :
  String.concat "," (map enc hs) <> EmptyString ->
  Str.forall_chars (fun c => negb (PyCsv.is_nl c)) (String.concat "," (map enc hs)) = true ->
  Forall ok hs ->
  (rest = EmptyString \/ exists r, rest = String PyCsv.LF r \/ rest = String PyCsv.CR r) ->
  PyCsv.first_row (String.concat "," (map enc hs) ++ rest) = Some (Some hs).
Proof.
  intros Hne Hnl Hf Hr. unfold PyCsv.first_row.
  rewrite lines_app by exact Hnl.
  destruct Hr as [-> | (r & [-> | ->])].
  - assert (E : PyCsv.lines EmptyString = []) by reflexivity. rewrite E.
    assert (P : match String.concat "," (map enc hs) with
                | EmptyString => [] | _ => [String.concat "," (map enc hs)] end =
                [(String.concat "," (map enc hs) ++ EmptyString)%string]).
    { rewrite str_app_nil_r. destruct (String.concat "," (map enc hs)); [congruence|reflexivity]. }
    cbv iota. rewrite P. apply first_line_enc; auto. left; reflexivity.
  - rewrite lines_LF. apply first_line_enc; auto. right; left; reflexivity.
  - destruct r as [|d r].
    + rewrite lines_CR by exact I. apply first_line_enc; auto. right; right; right; reflexivity.
    + destruct (Ascii.eqb d PyCsv.LF) eqn:Ed.
      * apply Ascii.eqb_eq in Ed. subst d. rewrite lines_CRLF.
        apply first_line_enc; auto. right; right; left; reflexivity.
      * rewrite lines_CR by exact Ed. apply first_line_enc; auto. right; right; right; reflexivity.
Qed.

End Rows.

Lemma plain_no_nl c : PyCsv.plain_char c = true -> PyCsv.is_nl c = false.
Proof. unfold PyCsv.plain_char. intros H. destruct (PyCsv.is_nl c); [discriminate|reflexivity]. Qed.

Lemma concat_no_nl (enc : string -> string) hs :
  Forall (fun h => Str.forall_chars (fun c => negb (PyCsv.is_nl c)) (enc h) = true) hs ->
  Str.forall_chars (fun c => negb (PyCsv.is_nl c)) (String.concat "," (map enc hs)) = true.
Proof.
  induction 1 as [|h hs Hh Hf IH]; [reflexivity|].
  destruct hs as [|h2 hs]; [exact Hh|].
  change (String.concat "," (map enc (h :: h2 :: hs)))
    with (enc h ++ String "," (String.concat "," (map enc (h2 :: hs))))%string.
  rewrite forall_chars_app, Hh. simpl. exact IH.
Qed.

Lemma double_quotes_no_nl h :
  Str.forall_chars (fun c => negb (PyCsv.is_nl c)) h = true ->
  Str.forall_chars (fun c => negb (PyCsv.is_nl c)) (PyCsv.double_quotes h) = true.
Proof.
  induction h as [|c h IH]; simpl; [reflexivity|]. intros H.
  apply andb_true_iff in H as [Hc Hh].
  destruct (Ascii.eqb c PyCsv.DQ) eqn:E.
  - apply Ascii.eqb_eq in E. subst c. simpl. exact (IH Hh).
  - simpl. rewrite Hc. exact (IH Hh).
Qed.

Lemma first_row_plain hs rest :
  String.concat "," hs <> EmptyString ->
  Forall (fun h => Str.forall_chars PyCsv.plain_char h = true /\ (String.length h <= PyCsv.field_limit)%nat) hs ->
  (rest = EmptyString \/ exists r, rest = String PyCsv.LF r \/ rest = String PyCsv.CR r) ->
  PyCsv.first_row (String.concat "," hs ++ rest) = Some (Some hs).
Proof.
  intros Hne Hf Hr. rewrite <- (map_id hs) at 1.
  apply (first_row_enc (fun h => h)
           (fun h => Str.forall_chars PyCsv.plain_char h = true /\ (String.length h <= PyCsv.field_limit)%nat)).
  - intros h flds tail [Hp Hl]. destruct (field_run h flds tail Hp Hl) as (r & E & Hs & H1 & H2).
    exists r. unfold ends_field. intuition.
  - rewrite map_id. exact Hne.
  - apply concat_no_nl. eapply Forall_impl; [|exact Hf]. intros h [Hp _].
    apply (forall_chars_impl PyCsv.plain_char); [|exact Hp].
    intros c Hc. rewrite plain_no_nl by exact Hc. reflexivity.
  - exact Hf.
  - exact Hr.
Qed.

Lemma first_row_quoted hs rest :
  hs <> [] ->
  Forall (fun h => Str.forall_chars (fun c => negb (PyCsv.is_nl c)) h = true /\
                   (String.length h <= PyCsv.field_limit)%nat) hs ->
  (rest = EmptyString \/ exists r, rest = String PyCsv.LF r \/ rest = String PyCsv.CR r) ->
  PyCsv.first_row (String.concat "," (map PyCsv.quote_all hs) ++ rest) = Some (Some hs).
Proof.
  intros Hne Hf Hr.
  apply (first_row_enc PyCsv.quote_all
           (fun h => Str.forall_chars (fun c => negb (PyCsv.is_nl c)) h = true /\
                     (String.length h <= PyCsv.field_limit)%nat)).
  - intros h flds tail [_ Hl]. exact (quoted_run h flds tail Hl).
  - destruct hs as [|h [|h2 hs]]; [congruence| |]; simpl; discriminate.
  - apply concat_no_nl. eapply Forall_impl; [|exact Hf]. intros h [Hp _].
    unfold PyCsv.quote_all. simpl. rewrite forall_chars_app, double_quotes_no_nl by exact Hp. reflexivity.
  - exact Hf.
  - exact Hr.
Qed.

Lemma first_row_blank text :
  (text = EmptyString \/ exists r, text = String PyCsv.LF r \/ text = String PyCsv.CR r) ->
  PyCsv.first_row text = Some None \/ PyCsv.first_row text = Some (Some []).
Proof.
  intros [-> | (r & [-> | ->])]; [left; reflexivity| |].
  - right. unfold PyCsv.first_row. rewrite lines_LF. reflexivity.
  - right. unfold PyCsv.first_row. destruct r as [|d r]; [reflexivity|].
    destruct (Ascii.eqb d PyCsv.LF) eqn:Ed.
    + apply Ascii.eqb_eq in Ed. subst d. rewrite lines_CRLF. reflexivity.
    + rewrite lines_CR by exact Ed. reflexivity.
Qed.

(** ** Lemmas on runs *)
Lemma filter_rev {A} (f : A -> bool) l : filter f (rev l) = rev (filter f l).
Proof.
  induction l as [|a l IH]; simpl; [reflexivity|].
  rewrite filter_app, IH. simpl. destruct (f a); simpl; [reflexivity|apply app_nil_r].
Qed.

Lemma trace_gets r : forall k n, length (filter is_get (Tenacity.trace r n k)) = k.
Proof.
  induction k as [|k IH]; intro n; [reflexivity|].
  destruct k as [|k]; [reflexivity|].
  change (Tenacity.trace r n (S (S k))) with
    (Ev_get r :: Ev_sleep (Tenacity.wait n) :: Tenacity.trace r (S n) (S k)).
  cbn [filter is_get length]. rewrite IH. reflexivity.
Qed.

(** [fetch_csv] issues between one and six requests. *)
Lemma fetch_csv_ncalls r out w res w' :
  fetch_csv r out w = (res, w') ->
  (ncalls w + 1 <= ncalls w' <= ncalls w + 6)%nat.
Proof.
  unfold fetch_csv, Tenacity.retrying. intro E.
  destruct (attempt_trace r out 5 1 w res w' eq_refl ltac:(lia) E) as (k & Hk & L & _).
  unfold ncalls. rewrite L, filter_app, length_app, filter_rev, length_rev, trace_gets. lia.
Qed.

Lemma out_not_part root y lat lon p : out_path root y lat lon <> part_path p.
Proof.
  intro H. apply (f_equal pname) in H.
  destruct (with_suffix_name p ".part") as [a Ha].
  destruct (artifact_name_csv y lat lon) as [b Hb].
  unfold part_path in H. rewrite Ha in H. simpl in H. rewrite Hb in H.
  exact (csv_not_part _ _ H).
Qed.

Lemma out_not_err root y lat lon p : out_path root y lat lon <> err_path p.
Proof.
  intro H. apply (f_equal pname) in H.
  destruct (with_suffix_name p ".err.txt") as [a Ha].
  destruct (artifact_name_csv y lat lon) as [b Hb].
  unfold err_path in H. rewrite Ha in H. simpl in H. rewrite Hb in H.
  exact (csv_not_err _ _ H).
Qed.

Section Batch.
Context `{CsvReader}.

Lemma valid_same (f f' : fs) p : f' p = f p -> looks_like_valid_csv f' p = looks_like_valid_csv f p.
Proof. intro E. unfold looks_like_valid_csv. rewrite E. reflexivity. Qed.


(** One iteration leaves every artifact that is valid when it starts as it is. *)
Lemma process_item_keeps_artifact root sleep_s y pt w o w' y' lat' lon' :
  process_item root sleep_s y pt w = (Ok o, w') ->
  looks_like_valid_csv (w_fs w) (out_path root y' lat' lon') = true ->
  w_fs w' (out_path root y' lat' lon') = w_fs w (out_path root y' lat' lon').
Proof.
  destruct pt as [lat lon]. intros E V.
  set (p := out_path root y' lat' lon') in *.
  set (out := out_path root y lat lon).
  destruct (path_eq_dec p out) as [Ep|Np].
  { rewrite Ep in V |- *. rewrite (process_item_skip _ _ _ _ _ _ V) in E.
    injection E as _ <-. reflexivity. }
  destruct (process_item_cases _ _ _ _ _ _ _ _ E) as [[_ ->]|[[_ Fr]|(m & _ & _ & Fr)]].
  - reflexivity.
  - apply Fr; [exact Np|apply out_not_part].
  - apply Fr; [exact Np|apply out_not_part|apply out_not_err].
Qed.

Lemma process_item_valid root sleep_s y lat lon w o w' :
  process_item root sleep_s y (lat, lon) w = (Ok o, w') ->
  (exists m, o = Failed m) \/ looks_like_valid_csv (w_fs w') (out_path root y lat lon) = true.
Proof.
  intro E. set (out := out_path root y lat lon).
  destruct (looks_like_valid_csv (w_fs w) out) eqn:V0.
  - rewrite (process_item_skip _ _ _ _ _ _ V0) in E. injection E as _ <-. right; exact V0.
  - rewrite (process_item_fetch _ _ _ _ _ _ V0) in E. fold out in E.
    destruct (fetch_csv (y, lat, lon) out w) as [[u|e] w1];
      [destruct (looks_like_valid_csv (w_fs w1) out) eqn:V1|];
      injection E as <- <-; eauto.
Qed.

Lemma for_points_keeps_artifact root sleep_s y y' lat' lon' : forall pts w outs w',
  for_points root sleep_s y pts w = (Ok outs, w') ->
  looks_like_valid_csv (w_fs w) (out_path root y' lat' lon') = true ->
  w_fs w' (out_path root y' lat' lon') = w_fs w (out_path root y' lat' lon').
Proof.
  induction pts as [|pt pts IH]; intros w outs w' E V; simpl in E.
  - injection E as _ <-. reflexivity.
  - unfold bind in E. destruct (process_item root sleep_s y pt w) as [[o|e] w1] eqn:E1; [|discriminate].
    destruct (for_points root sleep_s y pts w1) as [[os|e] w2] eqn:E2; [|discriminate].
    injection E as _ <-. pose proof (process_item_keeps_artifact _ _ _ _ _ _ _ _ _ _ E1 V) as F1.
    rewrite (IH _ _ _ E2) by (rewrite (valid_same _ _ _ F1); exact V). exact F1.
Qed.

Lemma for_years_keeps_artifact root sleep_s pts y' lat' lon' : forall ys w outs w',
  for_years root sleep_s ys pts w = (Ok outs, w') ->
  looks_like_valid_csv (w_fs w) (out_path root y' lat' lon') = true ->
  w_fs w' (out_path root y' lat' lon') = w_fs w (out_path root y' lat' lon').
Proof.
  induction ys as [|y ys IH]; intros w outs w' E V; simpl in E.
  - injection E as _ <-. reflexivity.
  - unfold bind in E. destruct (for_points root sleep_s y pts w) as [[os|e] w1] eqn:E1; [|discriminate].
    destruct (for_years root sleep_s ys pts w1) as [[os'|e] w2] eqn:E2; [|discriminate].
    injection E as _ <-. pose proof (for_points_keeps_artifact _ _ _ _ _ _ _ _ _ _ E1 V) as F1.
    rewrite (IH _ _ _ E2) by (rewrite (valid_same _ _ _ F1); exact V). exact F1.
Qed.

Lemma for_points_keeps_valid root sleep_s y y' lat' lon' pts w outs w' :
  for_points root sleep_s y pts w = (Ok outs, w') ->
  looks_like_valid_csv (w_fs w) (out_path root y' lat' lon') = true ->
  looks_like_valid_csv (w_fs w') (out_path root y' lat' lon') = true.
Proof.
  intros E V. rewrite (valid_same (w_fs w)); [exact V|].
  exact (for_points_keeps_artifact _ _ _ _ _ _ _ _ _ _ E V).
Qed.

Lemma for_years_keeps_valid root sleep_s pts y' lat' lon' ys w outs w' :
  for_years root sleep_s ys pts w = (Ok outs, w') ->
  looks_like_valid_csv (w_fs w) (out_path root y' lat' lon') = true ->
  looks_like_valid_csv (w_fs w') (out_path root y' lat' lon') = true.
Proof.
  intros E V. rewrite (valid_same (w_fs w)); [exact V|].
  exact (for_years_keeps_artifact _ _ _ _ _ _ _ _ _ _ E V).
Qed.

Lemma for_points_done root sleep_s y : forall pts w outs w',
  for_points root sleep_s y pts w = (Ok outs, w') ->
  Forall2 ((fun it o => (exists m, o = Failed m) \/
            looks_like_valid_csv (w_fs w') (out_path root (fst it) (fst (snd it)) (snd (snd it))) = true)) (map (pair y) pts) outs.
Proof.
  induction pts as [|[lat lon] pts IH]; intros w outs w' E; cbn [for_points] in E.
  - injection E as <- _. constructor.
  - unfold bind in E. destruct (process_item root sleep_s y (lat, lon) w) as [[o|e] w1] eqn:E1; [|discriminate].
    destruct (for_points root sleep_s y pts w1) as [[os|e] w2] eqn:E2; [|discriminate].
    injection E as <- <-. constructor; [|exact (IH _ _ _ E2)].
    destruct (process_item_valid _ _ _ _ _ _ _ _ E1) as [Hf|V]; [left; exact Hf|right].
    exact (for_points_keeps_valid _ _ _ _ _ _ _ _ _ _ E2 V).
Qed.

Lemma for_years_done root sleep_s pts : forall ys w outs w',
  for_years root sleep_s ys pts w = (Ok outs, w') ->
  Forall2 ((fun it o => (exists m, o = Failed m) \/
            looks_like_valid_csv (w_fs w') (out_path root (fst it) (fst (snd it)) (snd (snd it))) = true)) (list_prod ys pts) outs.
Proof.
  induction ys as [|y ys IH]; intros w outs w' E; simpl in E.
  - injection E as <- _. constructor.
  - unfold bind in E. destruct (for_points root sleep_s y pts w) as [[os|e] w1] eqn:E1; [|discriminate].
    destruct (for_years root sleep_s ys pts w1) as [[os'|e] w2] eqn:E2; [|discriminate].
    injection E as <- <-. simpl. apply Forall2_app; [|exact (IH _ _ _ E2)].
    eapply Forall2_impl; [|exact (for_points_done _ _ _ _ _ _ _ E1)].
    intros [y' [lat' lon']] o [Hf|V]; [left; exact Hf|right].
    exact (for_years_keeps_valid _ _ _ _ _ _ _ _ _ _ E2 V).
Qed.

Lemma for_points_all_valid root sleep_s y pts w :
  Forall (fun pt => looks_like_valid_csv (w_fs w) (out_path root y (fst pt) (snd pt)) = true) pts ->
  for_points root sleep_s y pts w = (Ok (repeat Skipped (length pts)), w).
Proof.
  induction 1 as [|[lat lon] pts V _ IH]; [reflexivity|].
  cbn [for_points length repeat]. unfold bind. simpl in V.
  rewrite (process_item_skip _ _ _ _ _ _ V), IH. reflexivity.
Qed.

Lemma for_years_all_valid root sleep_s pts ys w :
  Forall (fun it => looks_like_valid_csv (w_fs w) (out_path root (fst it) (fst (snd it)) (snd (snd it))) = true)
         (list_prod ys pts) ->
  for_years root sleep_s ys pts w = (Ok (repeat Skipped (length ys * length pts)), w).
Proof.
  induction ys as [|y ys IH]; intros V; simpl; [reflexivity|].
  simpl in V. apply Forall_app in V as [V1 V2].
  unfold bind. rewrite for_points_all_valid, IH by
    (assumption || (apply Forall_map in V1; exact V1)).
  rewrite repeat_app. reflexivity.
Qed.





End Batch.

(** ** Requests issued by a run *)

(** [X1] Each call of [fetch_csv] sends between one and six requests: the
    first attempt always sends one, and [stop_after_attempt(6)] ends the
    retries after the sixth. *)
Theorem fetch_csv_request_count r out w res w' :
  fetch_csv r out w = (res, w') ->
  (ncalls w + 1 <= ncalls w' <= ncalls w + 6)%nat.
Proof. exact (fetch_csv_ncalls r out w res w'). Qed.

Lemma fetch_csv_request_count_witness :
  ncalls (snd (fetch_csv (2020%Z, Sample.lat8, Sample.lon102) Sample.out
                 (Sample.world_of Sample.empty_fs (Sample.server_429s 10)))) = 6%nat /\
  (1 <= ncalls (snd (fetch_csv (2020%Z, Sample.lat8, Sample.lon102) Sample.out
                      (Sample.world_of Sample.empty_fs (Sample.server_429s 10)))) <= 6)%nat.
Proof.
  split; [vm_compute; reflexivity|].
  exact (fetch_csv_request_count _ _ (Sample.world_of Sample.empty_fs (Sample.server_429s 10)) _ _
           (surjective_pairing _)).
Defined.



(** ** What a run leaves on disk *)

(** [X3] When a run ends, every item whose iteration did not end in the
    [except] branch has a valid artifact at its path, in year-major order of
    the items. *)
Theorem run_leaves_valid_artifacts `{CsvReader} root sleep_s years pts w outs w' :
  for_years root sleep_s years pts w = (Ok outs, w') ->
  Forall2 (fun it o => (exists m, o = Failed m) \/
             looks_like_valid_csv (w_fs w') (out_path root (fst it) (fst (snd it)) (snd (snd it))) = true)
          (list_prod years pts) outs.
Proof. intro E. exact (for_years_done _ _ _ _ _ _ _ E). Qed.

Lemma run_leaves_valid_artifacts_witness :
  exists outs w',
    @for_years py_csv _ Sample.root 0 [2020%Z] Sample.box_points Sample.w_fresh = (Ok outs, w') /\
    Forall2 (fun it o => (exists m, o = Failed m) \/
               @looks_like_valid_csv py_csv (w_fs w')
                 (out_path Sample.root (fst it) (fst (snd it)) (snd (snd it))) = true)
            (list_prod [2020%Z] Sample.box_points) outs.
Proof.
  exists (repeat Fetched 9), (snd (@for_years py_csv _ Sample.root 0 [2020%Z] Sample.box_points Sample.w_fresh)).
  assert (E : @for_years py_csv _ Sample.root 0 [2020%Z] Sample.box_points Sample.w_fresh =
              (Ok (repeat Fetched 9), snd (@for_years py_csv _ Sample.root 0 [2020%Z] Sample.box_points Sample.w_fresh)))
    by (transitivity (fst (@for_years py_csv _ Sample.root 0 [2020%Z] Sample.box_points Sample.w_fresh),
                      snd (@for_years py_csv _ Sample.root 0 [2020%Z] Sample.box_points Sample.w_fresh));
        [apply surjective_pairing | f_equal; vm_compute; reflexivity]).
  split; [exact E|]. exact (@run_leaves_valid_artifacts py_csv _ _ _ _ _ _ _ E).
Defined.

(** [X4] A run in which no item failed is a fixed point: running it again
    from the state it left skips every item, sends no request and changes
    nothing. *)
Theorem clean_run_rerun_is_noop `{CsvReader} root sleep_s years pts w outs w' :
  for_years root sleep_s years pts w = (Ok outs, w') ->
  (forall m, ~ In (Failed m) outs) ->
  for_years root sleep_s years pts w' = (Ok (repeat Skipped (length outs)), w').
Proof.
  intros E Hf.
  assert (D := for_years_done _ _ _ _ _ _ _ E).
  rewrite <- (Forall2_length D), length_prod.
  apply for_years_all_valid.
  clear E. induction D as [|it o its os Hio _ IH]; constructor.
  - destruct Hio as [[m ->]|V]; [exfalso; apply (Hf m); left; reflexivity|exact V].
  - apply IH. intros m Hm. apply (Hf m). right; exact Hm.
Qed.

Lemma clean_run_rerun_is_noop_witness :
  exists outs w',
    @for_years py_csv _ Sample.root 0 [2020%Z] Sample.box_points Sample.w_fresh = (Ok outs, w') /\
    (forall m, ~ In (Failed m) outs) /\
    @for_years py_csv _ Sample.root 0 [2020%Z] Sample.box_points w' = (Ok (repeat Skipped 9), w').
Proof.
  exists (repeat Fetched 9), (snd (@for_years py_csv _ Sample.root 0 [2020%Z] Sample.box_points Sample.w_fresh)).
  assert (E : @for_years py_csv _ Sample.root 0 [2020%Z] Sample.box_points Sample.w_fresh =
              (Ok (repeat Fetched 9), snd (@for_years py_csv _ Sample.root 0 [2020%Z] Sample.box_points Sample.w_fresh)))
    by (transitivity (fst (@for_years py_csv _ Sample.root 0 [2020%Z] Sample.box_points Sample.w_fresh),
                      snd (@for_years py_csv _ Sample.root 0 [2020%Z] Sample.box_points Sample.w_fresh));
        [apply surjective_pairing | f_equal; vm_compute; reflexivity]).
  assert (Hf : forall m, ~ In (Failed m) (repeat Fetched 9)).
  { intros m Hm. apply repeat_spec in Hm. discriminate Hm. }
  split; [exact E|]. split; [exact Hf|].
  exact (@clean_run_rerun_is_noop py_csv _ _ _ _ _ _ _ E Hf).
Defined.

(** [X5] A run never changes a file that is a valid artifact when the run
    starts, whichever item it belongs to. *)
Theorem run_never_touches_valid_artifacts `{CsvReader} root sleep_s years pts w outs w' y lat lon :
  for_years root sleep_s years pts w = (Ok outs, w') ->
  looks_like_valid_csv (w_fs w) (out_path root y lat lon) = true ->
  w_fs w' (out_path root y lat lon) = w_fs w (out_path root y lat lon).
Proof. intros E V. exact (for_years_keeps_artifact _ _ _ _ _ _ _ _ _ _ E V). Qed.

Lemma run_never_touches_valid_artifacts_witness :
  exists outs w',
    @for_years py_csv _ Sample.root 0 [2020%Z] Sample.box_points Sample.w_valid = (Ok outs, w') /\
    outs = Skipped :: repeat (Failed "unreachable") 8 /\
    @looks_like_valid_csv py_csv (w_fs Sample.w_valid) Sample.out = true /\
    w_fs w' Sample.out = w_fs Sample.w_valid Sample.out.
Proof.
  exists (Skipped :: repeat (Failed "unreachable") 8),
         (snd (@for_years py_csv _ Sample.root 0 [2020%Z] Sample.box_points Sample.w_valid)).
  assert (E : @for_years py_csv _ Sample.root 0 [2020%Z] Sample.box_points Sample.w_valid =
              (Ok (Skipped :: repeat (Failed "unreachable") 8),
               snd (@for_years py_csv _ Sample.root 0 [2020%Z] Sample.box_points Sample.w_valid)))
    by (transitivity (fst (@for_years py_csv _ Sample.root 0 [2020%Z] Sample.box_points Sample.w_valid),
                      snd (@for_years py_csv _ Sample.root 0 [2020%Z] Sample.box_points Sample.w_valid));
        [apply surjective_pairing | f_equal; vm_compute; reflexivity]).
  assert (V : @looks_like_valid_csv py_csv (w_fs Sample.w_valid) Sample.out = true)
    by (vm_compute; reflexivity).
  split; [exact E|]. split; [reflexivity|]. split; [exact V|].
  exact (@run_never_touches_valid_artifacts py_csv _ _ _ _ _ _ _ _ _ _ E V).
Defined.

(** ** When the grid enumeration ends *)

(** [X6] [frange] never ends once the step is absorbed: when a value
    [x] passes the guard [x <= stop + 1e-9] and the float sum [x + step] is
    [x] again (a step below half an ulp of [x], or [0.0]), the loop yields
    [x] forever, for every positive step as well. *)
Theorem frange_absorbed_step_never_ends fuel x stop step :
  F.leb x (F.add stop Grid.eps) = true -> F.add x step = x ->
  Grid.frange fuel x stop step = None.
Proof.
  intros Hg Ha. induction fuel as [|fuel IH]; [reflexivity|].
  cbn [Grid.frange]. rewrite Hg, Ha, IH. reflexivity.
Qed.

(** From [8.0] to [9.0] by the positive step [1e-20]. *)
Lemma frange_absorbed_step_never_ends_witness :
  Grid.frange 1000 Sample.lat8 (F.of_Z 9) (F.of_Q (1 # 100000000000000000000)) = None.
Proof.
  exact (frange_absorbed_step_never_ends 1000 Sample.lat8 (F.of_Z 9)
           (F.of_Q (1 # 100000000000000000000))
           ltac:(vm_compute; reflexivity) ltac:(vm_compute; reflexivity)).
Defined.

(** ** The validity check on Python's [csv] reader *)

(** [X8] When the first line of a file is made of plain ASCII fields (no
    delimiter, quote or line break inside, each within the field size
    limit) and is not empty, [looks_like_valid_csv] reads exactly those
    fields: the file is valid iff one of them contains [GHI] in upper case,
    whatever the following lines hold. *)
Theorem looks_like_valid_csv_plain_header f p hs rest :
  String.concat "," hs <> EmptyString ->
  Forall (fun h => Str.forall_chars PyCsv.plain_char h = true /\
                   Str.forall_chars Str.is_ascii h = true /\
                   (String.length h <= PyCsv.field_limit)%nat) hs ->
  (rest = EmptyString \/ exists r, rest = String PyCsv.LF r \/ rest = String PyCsv.CR r) ->
  f p = Some (String.concat "," hs ++ rest)%string ->
  @looks_like_valid_csv py_csv f p = @header_ok py_csv hs.
Proof.
  intros Hne Hf Hr Hp.
  assert (Hf' := Forall_impl _ (fun h (Hh : _ /\ _ /\ _) => conj (proj1 Hh) (proj2 (proj2 Hh))) Hf).
  clear Hf. unfold looks_like_valid_csv, csv_first_row, py_csv.
  rewrite Hp, first_row_plain by assumption. reflexivity.
Qed.

Lemma looks_like_valid_csv_plain_header_witness :
  @looks_like_valid_csv py_csv (upd Sample.empty_fs Sample.out (Some Sample.good_body)) Sample.out = true.
Proof.
  rewrite (looks_like_valid_csv_plain_header _ _ ["Year"; "Month"; "GHI"; "DNI"]%string
             (String PyCsv.LF "2020,1,0,0"%string)).
  - vm_compute. reflexivity.
  - discriminate.
  - repeat constructor; apply Nat.leb_le; vm_compute; reflexivity.
  - right. eexists. left. reflexivity.
  - apply upd_same.
Defined.

(** [X9] A first line written with every field quoted ([csv.QUOTE_ALL]:
    fields between quotes, inner quotes doubled) is read back field for
    field, delimiters and quotes inside included, as long as the fields are
    ASCII and none holds a line break or exceeds the field size limit;
    validity then again depends on those fields only. *)
Theorem looks_like_valid_csv_quoted_header f p hs rest :
  hs <> [] ->
  Forall (fun h => Str.forall_chars (fun c => negb (PyCsv.is_nl c)) h = true /\
                   Str.forall_chars Str.is_ascii h = true /\
                   (String.length h <= PyCsv.field_limit)%nat) hs ->
  (rest = EmptyString \/ exists r, rest = String PyCsv.LF r \/ rest = String PyCsv.CR r) ->
  f p = Some (String.concat "," (map PyCsv.quote_all hs) ++ rest)%string ->
  @looks_like_valid_csv py_csv f p = @header_ok py_csv hs.
Proof.
  intros Hne Hf Hr Hp.
  assert (Hf' := Forall_impl _ (fun h (Hh : _ /\ _ /\ _) => conj (proj1 Hh) (proj2 (proj2 Hh))) Hf).
  clear Hf. unfold looks_like_valid_csv, csv_first_row, py_csv.
  rewrite Hp, first_row_quoted by assumption. reflexivity.
Qed.

Lemma looks_like_valid_csv_quoted_header_witness :
  @looks_like_valid_csv py_csv
    (upd Sample.empty_fs Sample.out
       (Some (String.concat "," (map PyCsv.quote_all ["Year"; "GHI, W/m2"; String PyCsv.DQ "DNI"])
              ++ String PyCsv.LF "2020,1,0")%string))
    Sample.out = true.
Proof.
  rewrite (looks_like_valid_csv_quoted_header _ _ ["Year"; "GHI, W/m2"; String PyCsv.DQ "DNI"]%string
             (String PyCsv.LF "2020,1,0"%string)).
  - vm_compute. reflexivity.
  - discriminate.
  - repeat constructor; try (apply Nat.leb_le); vm_compute; reflexivity.
  - right. eexists. left. reflexivity.
  - apply upd_same.
Defined.

(** [X10] An empty file, or one whose first line is blank, is never valid,
    even when a [GHI] header follows: the reader's first row is then the
    empty row (or there is none). *)
Theorem looks_like_valid_csv_blank_first_line f p text :
  f p = Some text ->
  (text = EmptyString \/ exists r, text = String PyCsv.LF r \/ text = String PyCsv.CR r) ->
  @looks_like_valid_csv py_csv f p = false.
Proof.
  intros Hp Ht. unfold looks_like_valid_csv, csv_first_row, py_csv. rewrite Hp.
  destruct (first_row_blank text Ht) as [-> | ->]; reflexivity.
Qed.

Lemma looks_like_valid_csv_blank_first_line_witness :
  @looks_like_valid_csv py_csv (upd Sample.empty_fs Sample.out (Some Sample.good_body)) Sample.out = true /\
  @looks_like_valid_csv py_csv
    (upd Sample.empty_fs Sample.out (Some (String PyCsv.LF Sample.good_body))) Sample.out = false.
Proof.
  split; [vm_compute; reflexivity|].
  apply (looks_like_valid_csv_blank_first_line _ _ (String PyCsv.LF Sample.good_body)).
  - apply upd_same.
  - right. eexists. left. reflexivity.
Defined.
